(** * run_scraper.js: the command-line wrapper around google-news-scraper

    A shallow embedding of [main] of [run_scraper.js] together with the
    parts of the JavaScript runtime it touches: [process.argv],
    [process.exit], [console.log], [console.error], [JSON.stringify],
    template literals and the property read [error.message].

    Conventions of the embedding.
    - JavaScript strings are [string]: the text as it reaches the output
      streams (well-formed text; lone surrogates are not represented).
    - JavaScript numbers are the integers [Z]; [JNumber n] stands for a
      JavaScript number when [n] is a safe integer ([safe_integer]: at most
      2^53 - 1 in magnitude), which the runtime prints in plain decimal.
      The statements that fix the digits of a number or read them back
      carry that bound; fractional and non-finite doubles are not
      represented, and neither are functions, symbols, dates or cyclic
      objects.
    - The external Provider [googleNewsScraper] is a parameter: a function
      from the configuration record to a settled promise.
    - Effects are an explicit trace of events threaded through a small
      monad whose results distinguish returning, throwing and
      [process.exit]. *)

From Stdlib Require Import String Ascii List ZArith NArith Lia Bool.
From Stdlib Require Import DecimalString DecimalZ.
Import ListNotations.
Local Open Scope string_scope.

(** ** JavaScript values *)

Unset Elimination Schemes.
Inductive JsValue : Type :=
| JUndefined
| JNull
| JBool (b : bool)
| JNumber (n : Z)
| JBigInt (n : Z)
| JString (s : string)
| JArray (elements : list JsValue)
| JObject (properties : list (string * JsValue))
| JError (name message : string).
Set Elimination Schemes.

(** An ECMAScript completion record: a value, or a thrown value. *)
Inductive Completion (A : Type) : Type :=
| Normal (a : A)
| Throw (e : JsValue).
Arguments Normal {A} a.
Arguments Throw {A} e.

Definition LF : ascii := "010"%char.
Definition CR : ascii := "013"%char.
Definition DQUOTE : ascii := "034"%char.
Definition BSLASH : ascii := "092"%char.
Definition NL : string := String LF EmptyString.
Definition QUOTE : string := String DQUOTE EmptyString.

(** [Number.MAX_SAFE_INTEGER] and [Number.isSafeInteger] on an integer. *)
Definition MAX_SAFE_INTEGER : Z := 9007199254740991.

Definition safe_integer (n : Z) : bool := (Z.abs n <=? MAX_SAFE_INTEGER)%Z.

(** [Number::toString] on a safe integer: its decimal digits. *)
Definition Number_toString (n : Z) : string :=
  NilZero.string_of_int (Z.to_int n).

(** [BigInt::toString]: the decimal digits, whatever the size. *)
Definition BigInt_toString (n : Z) : string :=
  NilZero.string_of_int (Z.to_int n).

(** [ToBoolean]. *)
Definition ToBoolean (v : JsValue) : bool :=
  match v with
  | JUndefined | JNull => false
  | JBool b => b
  | JNumber n | JBigInt n => negb (n =? 0)%Z
  | JString s => negb (s =? EmptyString)
  | JArray _ | JObject _ | JError _ _ => true
  end.

Fixpoint lookup_property (key : string) (properties : list (string * JsValue))
  : option JsValue :=
  match properties with
  | [] => None
  | (k, v) :: rest => if k =? key then Some v else lookup_property key rest
  end.

(** What [OrdinaryToPrimitive] throws when neither [toString] nor [valueOf]
    gives a primitive. *)
Definition primitive_error : JsValue :=
  JError "TypeError" "Cannot convert object to primitive value".

(** [ToString], as a template literal applies it to a substitution.
    An array goes through [Array.prototype.join], which renders its
    elements in turn ([undefined] and [null] as nothing).  A plain object
    goes through [OrdinaryToPrimitive]: an own [toString] property hides
    [Object.prototype.toString] and, holding data, cannot be called, and
    [valueOf] gives no primitive, so a TypeError is thrown; without it the
    object renders as [[object Object]].  An Error instance goes through
    [Error.prototype.toString]. *)
Fixpoint ToString (v : JsValue) : Completion string :=
  match v with
  | JUndefined => Normal "undefined"
  | JNull => Normal "null"
  | JBool true => Normal "true"
  | JBool false => Normal "false"
  | JNumber n => Normal (Number_toString n)
  | JBigInt n => Normal (BigInt_toString n)
  | JString s => Normal s
  | JArray elements =>
      match
        (fix each (l : list JsValue) : Completion (list string) :=
           match l with
           | [] => Normal []
           | e :: l' =>
               match
                 match e with
                 | JUndefined | JNull => Normal EmptyString
                 | _ => ToString e
                 end
               with
               | Throw err => Throw err
               | Normal str =>
                   match each l' with
                   | Throw err => Throw err
                   | Normal strs => Normal (str :: strs)
                   end
               end
           end) elements
      with
      | Throw err => Throw err
      | Normal strs => Normal (String.concat "," strs)
      end
  | JObject properties =>
      match lookup_property "toString" properties with
      | Some _ => Throw primitive_error
      | None => Normal "[object Object]"
      end
  | JError name message =>
      Normal (if name =? EmptyString then message
              else if message =? EmptyString then name
              else name ++ ": " ++ message)
  end.

(** The property read [error.message].  Reading a property of [undefined]
    or [null] throws a TypeError; primitives and arrays have no [message];
    an Error instance carries its message. *)
Definition read_message (error : JsValue) : Completion JsValue :=
  match error with
  | JUndefined =>
      Throw (JError "TypeError"
               "Cannot read properties of undefined (reading 'message')")
  | JNull =>
      Throw (JError "TypeError"
               "Cannot read properties of null (reading 'message')")
  | JObject properties =>
      match lookup_property "message" properties with
      | Some v => Normal v
      | None => Normal JUndefined
      end
  | JError _ message => Normal (JString message)
  | JBool _ | JNumber _ | JBigInt _ | JString _ | JArray _ => Normal JUndefined
  end.

(** The substitution [${error.message}] of the handler's template literal:
    the property read, then [ToString] of what it gives. *)
Definition rendered_message (error : JsValue) : Completion string :=
  match read_message error with
  | Throw thrown => Throw thrown
  | Normal message => ToString message
  end.

(** ** JSON.stringify *)

Definition hex_digit (n : N) : ascii :=
  match n with
  | 0 => "0" | 1 => "1" | 2 => "2" | 3 => "3" | 4 => "4" | 5 => "5"
  | 6 => "6" | 7 => "7" | 8 => "8" | 9 => "9" | 10 => "a" | 11 => "b"
  | 12 => "c" | 13 => "d" | 14 => "e" | _ => "f"
  end%N%char.

Definition UnicodeEscape (c : ascii) : string :=
  let n := N_of_ascii c in
  "\u00" ++ String (hex_digit (n / 16)) (String (hex_digit (n mod 16)) EmptyString).

(** One code unit of [QuoteJSONString]. *)
Definition escape_char (c : ascii) : string :=
  if (c =? "008")%char then "\b"
  else if (c =? "009")%char then "\t"
  else if (c =? LF)%char then "\n"
  else if (c =? "012")%char then "\f"
  else if (c =? CR)%char then "\r"
  else if (c =? DQUOTE)%char then String BSLASH (String DQUOTE EmptyString)
  else if (c =? BSLASH)%char then String BSLASH (String BSLASH EmptyString)
  else if (N_of_ascii c <? 32)%N then UnicodeEscape c
  else String c EmptyString.

Fixpoint escape_string (s : string) : string :=
  match s with
  | EmptyString => EmptyString
  | String c rest => escape_char c ++ escape_string rest
  end.

Definition QuoteJSONString (s : string) : string :=
  String DQUOTE (escape_string s ++ String DQUOTE EmptyString).

(** The last step of [SerializeJSONArray] and [SerializeJSONObject]:
    brackets around the serialized members, one member per line when a gap
    is in force. *)
Definition bracketed (opening closing gap stepback indent : string)
  (partial : list string) : string :=
  match partial with
  | [] => opening ++ closing
  | _ :: _ =>
      if gap =? EmptyString
      then opening ++ String.concat "," partial ++ closing
      else opening ++ NL ++ indent
             ++ String.concat ("," ++ NL ++ indent) partial
             ++ NL ++ stepback ++ closing
  end.

Definition member (gap key strP : string) : string :=
  QuoteJSONString key ++ ":"
    ++ (if gap =? EmptyString then EmptyString else " ") ++ strP.

(** [SerializeJSONProperty]: [Normal None] is the [undefined] result (the
    value is not serializable and is skipped by an enclosing object,
    written as [null] by an enclosing array). *)
Fixpoint SerializeJSONProperty (gap indent : string) (value : JsValue)
  {struct value} : Completion (option string) :=
  match value with
  | JUndefined => Normal None
  | JNull => Normal (Some "null")
  | JBool true => Normal (Some "true")
  | JBool false => Normal (Some "false")
  | JNumber n => Normal (Some (Number_toString n))
  | JBigInt _ => Throw (JError "TypeError" "Do not know how to serialize a BigInt")
  | JString s => Normal (Some (QuoteJSONString s))
  | JArray elements =>
      let stepback := indent in
      let indent := indent ++ gap in
      match
        (fix each (l : list JsValue) : Completion (list string) :=
           match l with
           | [] => Normal []
           | e :: l' =>
               match SerializeJSONProperty gap indent e with
               | Throw err => Throw err
               | Normal strP =>
                   match each l' with
                   | Throw err => Throw err
                   | Normal partial =>
                       Normal (match strP with
                               | None => "null"
                               | Some str => str
                               end :: partial)
                   end
               end
           end) elements
      with
      | Throw err => Throw err
      | Normal partial =>
          Normal (Some (bracketed "[" "]" gap stepback indent partial))
      end
  | JObject properties =>
      let stepback := indent in
      let indent := indent ++ gap in
      match
        (fix each (l : list (string * JsValue)) : Completion (list string) :=
           match l with
           | [] => Normal []
           | (key, e) :: l' =>
               match SerializeJSONProperty gap indent e with
               | Throw err => Throw err
               | Normal strP =>
                   match each l' with
                   | Throw err => Throw err
                   | Normal partial =>
                       Normal (match strP with
                               | None => partial
                               | Some str => member gap key str :: partial
                               end)
                   end
               end
           end) properties
      with
      | Throw err => Throw err
      | Normal partial =>
          Normal (Some (bracketed "{" "}" gap stepback indent partial))
      end
  | JError _ _ => Normal (Some "{}")
  end.

Fixpoint spaces (n : nat) : string :=
  match n with
  | O => EmptyString
  | S n' => String " " (spaces n')
  end.

(** The gap computed from the [space] argument of [JSON.stringify]. *)
Definition gap_of_space (space : JsValue) : string :=
  match space with
  | JNumber n => spaces (Z.to_nat (Z.min 10 n))
  | JString s => substring 0 10 s
  | _ => EmptyString
  end.

(** [JSON.stringify(value, null, space)]; the replacer is absent or [null]
    at both call sites of the program. *)
Definition JSON_stringify (value space : JsValue) : Completion (option string) :=
  SerializeJSONProperty (gap_of_space space) EmptyString value.

(** ** The process: output streams, the Provider, [process.exit] *)

(** The object literal handed to the Provider (fields in source order). *)
Record RetrievalConfig : Type := {
  searchTerm : JsValue;
  prettyURLs : bool;
  timeframe : string;
  puppeteerArgs : list string;
  logLevel : string;
  limit : Z
}.

(** A settled promise: what awaiting the Provider's call yields. *)
Inductive Settlement : Type :=
| Fulfilled (value : JsValue)
| Rejected (reason : JsValue).

(** What the process does that the outside can observe, in order: the call
    of the Provider, a write of [console.log], a write of [console.error],
    and the runtime's own report of a value that [main] threw (the trace
    that the runtime prints on standard error for the rejected promise;
    its text is the runtime's and is not modelled). *)
Inductive Event : Type :=
| Retrieve (config : RetrievalConfig)
| Stdout (chunk : string)
| Stderr (chunk : string)
| Uncaught (thrown : JsValue).

(** How a computation of the process ends: it returns, it throws, or
    [process.exit] ended the process on the spot. *)
Inductive Result (A : Type) : Type :=
| Returned (a : A)
| Thrown (e : JsValue)
| Exited (code : Z).
Arguments Returned {A} a.
Arguments Thrown {A} e.
Arguments Exited {A} code.

Definition M (A : Type) : Type := list Event -> Result A * list Event.

Definition ret {A} (a : A) : M A := fun tr => (Returned a, tr).

Definition bind {A B} (m : M A) (k : A -> M B) : M B :=
  fun tr =>
    match m tr with
    | (Returned a, tr') => k a tr'
    | (Thrown e, tr') => (Thrown e, tr')
    | (Exited code, tr') => (Exited code, tr')
    end.

Notation "x <- m ;; k" := (bind m (fun x => k))
  (at level 61, m at next level, right associativity).
Notation "m ;;; k" := (bind m (fun _ => k))
  (at level 61, right associativity).

(** A completion record entering the process: a thrown value propagates. *)
Definition lift {A} (c : Completion A) : M A :=
  fun tr =>
    match c with
    | Normal a => (Returned a, tr)
    | Throw e => (Thrown e, tr)
    end.

Definition emit (ev : Event) : M unit := fun tr => (Returned tt, (tr ++ [ev])%list).

(** [try { body } catch (error) { handler }].  A [process.exit] inside the
    body ends the process: no handler runs. *)
Definition try_catch {A} (body : M A) (handler : JsValue -> M A) : M A :=
  fun tr =>
    match body tr with
    | (Thrown e, tr') => handler e tr'
    | other => other
    end.

(** [process.argv[i]]: [undefined] beyond the end of the array. *)
Definition process_argv (argv : list string) (i : nat) : JsValue :=
  match nth_error argv i with
  | Some s => JString s
  | None => JUndefined
  end.

Definition process_exit {A} (code : Z) : M A := fun tr => (Exited code, tr).

(** [console.log] and [console.error] called with the one value that
    [JSON.stringify] returned: a string is written as it is, [undefined]
    ([None]) as the word; a line feed ends the line. *)
Definition format_line (data : option string) : string :=
  match data with
  | Some s => s ++ NL
  | None => "undefined" ++ NL
  end.

Definition console_log (data : option string) : M unit :=
  emit (Stdout (format_line data)).

Definition console_error (data : option string) : M unit :=
  emit (Stderr (format_line data)).

(** Calling the Provider and awaiting the promise it returns. *)
Definition await_call (provider : RetrievalConfig -> Settlement)
  (config : RetrievalConfig) : M JsValue :=
  emit (Retrieve config) ;;;
  match provider config with
  | Fulfilled value => ret value
  | Rejected reason => lift (Throw reason)
  end.

(** ** [main] *)

Definition main (googleNewsScraper : RetrievalConfig -> Settlement)
  (argv : list string) : M unit :=
  try_catch
    (let searchTerm := process_argv argv 2 in
     (if negb (ToBoolean searchTerm)
      then
        report <- lift (JSON_stringify
                          (JObject [("error", JString "No search term provided.")])
                          JUndefined) ;;
        console_error report ;;;
        process_exit 1
      else ret tt) ;;;
     articles <- await_call googleNewsScraper
                   {| searchTerm := searchTerm;
                      prettyURLs := true;
                      timeframe := "7d";
                      puppeteerArgs := ["--no-sandbox"; "--disable-setuid-sandbox"];
                      logLevel := "error";
                      limit := 15 |} ;;
     text <- lift (JSON_stringify articles (JNumber 2)) ;;
     console_log text)
    (fun error =>
       message <- lift (read_message error) ;;
       text <- lift (ToString message) ;;
       report <- lift (JSON_stringify
                         (JObject [("error",
                                    JString ("Scraper failed: " ++ text))])
                         JUndefined) ;;
       console_error report ;;;
       process_exit 1).

(** One run of the program, from an empty trace: the call [main()] of the
    last line.  Nothing handles the promise that [main] returns: when
    [main] throws, the runtime reports the thrown value and ends the
    process. *)
Definition run (googleNewsScraper : RetrievalConfig -> Settlement)
  (argv : list string) : Result unit * list Event :=
  match main googleNewsScraper argv [] with
  | (Thrown thrown, tr) => (Thrown thrown, (tr ++ [Uncaught thrown])%list)
  | other => other
  end.

(** The text written with [console.log]. *)
Fixpoint stdout_of (tr : list Event) : string :=
  match tr with
  | [] => EmptyString
  | Stdout chunk :: rest => chunk ++ stdout_of rest
  | _ :: rest => stdout_of rest
  end.

(** The text written with [console.error].  The runtime's report of an
    uncaught value also goes to standard error; it is the [Uncaught] event
    and no part of this text. *)
Fixpoint stderr_of (tr : list Event) : string :=
  match tr with
  | [] => EmptyString
  | Stderr chunk :: rest => chunk ++ stderr_of rest
  | _ :: rest => stderr_of rest
  end.

Fixpoint retrievals_of (tr : list Event) : list RetrievalConfig :=
  match tr with
  | [] => []
  | Retrieve config :: rest => config :: retrievals_of rest
  | _ :: rest => retrievals_of rest
  end.

(** The exit status of the process: 0 when [main] returns, the argument of
    [process.exit] when that ended the process, and 1 when [main] threw
    (the runtime, Node 15 and later, ends the process with status 1 after
    reporting the rejected promise). *)
Definition exit_status (r : Result unit) : option Z :=
  match r with
  | Returned _ => Some 0%Z
  | Exited code => Some code
  | Thrown _ => Some 1%Z
  end.

(** ** Reading JSON text back

    A reader for the JSON texts that denote the values represented here.
    It accepts a text only when the value is one of them: a number must be
    a safe integer in plain decimal, and the text of negative zero is
    declined.  What it accepts it reads as [JSON.parse] does; it is the
    yardstick for the statements that emitted text is well-formed JSON
    and denotes a given value. *)

Definition is_ws (c : ascii) : bool :=
  (c =? " ")%char || (c =? LF)%char || (c =? CR)%char || (c =? "009")%char.

Fixpoint skip_ws (s : string) : string :=
  match s with
  | String c rest => if is_ws c then skip_ws rest else s
  | EmptyString => s
  end.

Definition hex_value (c : ascii) : option N :=
  let n := N_of_ascii c in
  if (48 <=? n)%N && (n <=? 57)%N then Some (n - 48)%N
  else if (97 <=? n)%N && (n <=? 102)%N then Some (n - 87)%N
  else if (65 <=? n)%N && (n <=? 70)%N then Some (n - 55)%N
  else None.

Definition hex4 (h1 h2 h3 h4 : ascii) : option N :=
  match hex_value h1, hex_value h2, hex_value h3, hex_value h4 with
  | Some a, Some b, Some c, Some d => Some (4096 * a + 256 * b + 16 * c + d)%N
  | _, _, _, _ => None
  end.

(** The text of one escaped code unit; surrogate halves are not represented. *)
Definition utf8 (code : N) : option string :=
  if (code <? 128)%N then Some (String (ascii_of_N code) EmptyString)
  else if (code <? 2048)%N then
    Some (String (ascii_of_N (192 + code / 64))
            (String (ascii_of_N (128 + code mod 64)) EmptyString))
  else if (55296 <=? code)%N && (code <=? 57343)%N then None
  else
    Some (String (ascii_of_N (224 + code / 4096))
            (String (ascii_of_N (128 + (code / 64) mod 64))
               (String (ascii_of_N (128 + code mod 64)) EmptyString))).

Definition unescape (c : ascii) : option ascii :=
  if (c =? "b")%char then Some "008"%char
  else if (c =? "t")%char then Some "009"%char
  else if (c =? "n")%char then Some LF
  else if (c =? "f")%char then Some "012"%char
  else if (c =? "r")%char then Some CR
  else if (c =? DQUOTE)%char then Some DQUOTE
  else if (c =? BSLASH)%char then Some BSLASH
  else if (c =? "/")%char then Some "/"%char
  else None.

(** The characters of a string literal, after its opening quote. *)
Fixpoint read_string (s : string) : option (string * string) :=
  match s with
  | EmptyString => None
  | String c rest =>
      if (c =? DQUOTE)%char then Some (EmptyString, rest)
      else if (c =? BSLASH)%char then
        match rest with
        | String e rest1 =>
            if (e =? "u")%char then
              match rest1 with
              | String h1 (String h2 (String h3 (String h4 rest2))) =>
                  match hex4 h1 h2 h3 h4 with
                  | Some code =>
                      match utf8 code, read_string rest2 with
                      | Some chars, Some (str, tail) => Some (chars ++ str, tail)
                      | _, _ => None
                      end
                  | None => None
                  end
              | _ => None
              end
            else
              match unescape e, read_string rest1 with
              | Some ch, Some (str, tail) => Some (String ch str, tail)
              | _, _ => None
              end
        | EmptyString => None
        end
      else if (N_of_ascii c <? 32)%N then None
      else
        match read_string rest with
        | Some (str, tail) => Some (String c str, tail)
        | None => None
        end
  end.

Definition digit_of (c : ascii) : option (Decimal.uint -> Decimal.uint) :=
  if (c =? "0")%char then Some Decimal.D0
  else if (c =? "1")%char then Some Decimal.D1
  else if (c =? "2")%char then Some Decimal.D2
  else if (c =? "3")%char then Some Decimal.D3
  else if (c =? "4")%char then Some Decimal.D4
  else if (c =? "5")%char then Some Decimal.D5
  else if (c =? "6")%char then Some Decimal.D6
  else if (c =? "7")%char then Some Decimal.D7
  else if (c =? "8")%char then Some Decimal.D8
  else if (c =? "9")%char then Some Decimal.D9
  else None.

Fixpoint read_digits (s : string) : Decimal.uint * string :=
  match s with
  | String c rest =>
      match digit_of c with
      | Some d => let (u, tail) := read_digits rest in (d u, tail)
      | None => (Decimal.Nil, s)
      end
  | EmptyString => (Decimal.Nil, s)
  end.

(** Where an integer literal may stop: not before a further digit, a
    fraction or an exponent. *)
Definition number_end (tail : string) : bool :=
  match tail with
  | EmptyString => true
  | String c _ =>
      match digit_of c with
      | Some _ => false
      | None => negb ((c =? ".")%char || (c =? "e")%char || (c =? "E")%char)
      end
  end.

(** No leading zero, at least one digit. *)
Definition plain_digits (u : Decimal.uint) : bool :=
  match u with
  | Decimal.Nil => false
  | Decimal.D0 Decimal.Nil => true
  | Decimal.D0 _ => false
  | _ => true
  end.

Definition read_unsigned (s : string) : option (Z * string) :=
  let (u, tail) := read_digits s in
  if plain_digits u && number_end tail && safe_integer (Z.of_uint u)
  then Some (Z.of_uint u, tail)
  else None.

Definition read_number (s : string) : option (Z * string) :=
  match s with
  | String c rest =>
      if (c =? "-")%char then
        match read_unsigned rest with
        | Some (n, tail) => if (n =? 0)%Z then None else Some (Z.opp n, tail)
        | None => None
        end
      else read_unsigned s
  | EmptyString => None
  end.

Fixpoint expect (word s : string) : option string :=
  match word, s with
  | EmptyString, _ => Some s
  | String w word', String c s' => if (w =? c)%char then expect word' s' else None
  | String _ _, EmptyString => None
  end.

Fixpoint read_elements (pv : string -> option (JsValue * string)) (n : nat)
  (s : string) : option (list JsValue * string) :=
  match n with
  | O => None
  | S n' =>
      match pv s with
      | None => None
      | Some (v, tail) =>
          match skip_ws tail with
          | String c tail' =>
              if (c =? ",")%char then
                match read_elements pv n' tail' with
                | Some (vs, t) => Some (v :: vs, t)
                | None => None
                end
              else if (c =? "]")%char then Some ([v], tail')
              else None
          | EmptyString => None
          end
      end
  end.

Fixpoint read_members (pv : string -> option (JsValue * string)) (n : nat)
  (s : string) : option (list (string * JsValue) * string) :=
  match n with
  | O => None
  | S n' =>
      match skip_ws s with
      | String q rest =>
          if (q =? DQUOTE)%char then
            match read_string rest with
            | Some (key, tail) =>
                match skip_ws tail with
                | String colon tail1 =>
                    if (colon =? ":")%char then
                      match pv tail1 with
                      | Some (v, tail2) =>
                          match skip_ws tail2 with
                          | String c tail3 =>
                              if (c =? ",")%char then
                                match read_members pv n' tail3 with
                                | Some (ms, t) => Some ((key, v) :: ms, t)
                                | None => None
                                end
                              else if (c =? "}")%char then Some ([(key, v)], tail3)
                              else None
                          | EmptyString => None
                          end
                      | None => None
                      end
                    else None
                | EmptyString => None
                end
            | None => None
            end
          else None
      | EmptyString => None
      end
  end.

Definition closing (bracket : ascii) (s : string) : option string :=
  match skip_ws s with
  | String c rest => if (c =? bracket)%char then Some rest else None
  | EmptyString => None
  end.

Fixpoint read_value (fuel : nat) (s : string) : option (JsValue * string) :=
  match fuel with
  | O => None
  | S fuel' =>
      match skip_ws s with
      | EmptyString => None
      | String c rest =>
          if (c =? "n")%char then
            match expect "ull" rest with
            | Some tail => Some (JNull, tail)
            | None => None
            end
          else if (c =? "t")%char then
            match expect "rue" rest with
            | Some tail => Some (JBool true, tail)
            | None => None
            end
          else if (c =? "f")%char then
            match expect "alse" rest with
            | Some tail => Some (JBool false, tail)
            | None => None
            end
          else if (c =? DQUOTE)%char then
            match read_string rest with
            | Some (str, tail) => Some (JString str, tail)
            | None => None
            end
          else if (c =? "[")%char then
            match read_elements (read_value fuel') fuel' rest with
            | Some (vs, tail) => Some (JArray vs, tail)
            | None =>
                match closing "]" rest with
                | Some tail => Some (JArray [], tail)
                | None => None
                end
            end
          else if (c =? "{")%char then
            match read_members (read_value fuel') fuel' rest with
            | Some (ms, tail) => Some (JObject ms, tail)
            | None =>
                match closing "}" rest with
                | Some tail => Some (JObject [], tail)
                | None => None
                end
            end
          else
            match read_number (String c rest) with
            | Some (n, tail) => Some (JNumber n, tail)
            | None => None
            end
      end
  end.

(** [JSON.parse] on the texts the reader accepts: one value, then only
    white space. *)
Definition JSON_parse (text : string) : option JsValue :=
  match read_value (S (String.length text)) text with
  | Some (v, tail) =>
      match skip_ws tail with
      | EmptyString => Some v
      | String _ _ => None
      end
  | None => None
  end.

(** ** Vocabulary of the specification *)

(** The values an Article or a ResultSet may be: those JSON denotes. *)
Fixpoint json_serializable (v : JsValue) : bool :=
  match v with
  | JNull | JBool _ | JString _ => true
  | JNumber n => safe_integer n
  | JArray elements => forallb json_serializable elements
  | JObject properties =>
      forallb (fun kv => json_serializable (snd kv)) properties
  | JUndefined | JBigInt _ | JError _ _ => false
  end.

(** The text of a serializable value, under a gap and a current indent. *)
Fixpoint json_text (gap indent : string) (v : JsValue) : string :=
  match v with
  | JNull => "null"
  | JBool true => "true"
  | JBool false => "false"
  | JNumber n => Number_toString n
  | JString s => QuoteJSONString s
  | JArray elements =>
      bracketed "[" "]" gap indent (indent ++ gap)
        (map (json_text gap (indent ++ gap)) elements)
  | JObject properties =>
      bracketed "{" "}" gap indent (indent ++ gap)
        (map (fun kv => member gap (fst kv) (json_text gap (indent ++ gap) (snd kv)))
           properties)
  | JUndefined | JBigInt _ | JError _ _ => EmptyString
  end.

(** Fuel that reading a value back needs. *)
Fixpoint weight (v : JsValue) : nat :=
  match v with
  | JArray elements =>
      S ((fix sum (l : list JsValue) : nat :=
            match l with
            | [] => O
            | e :: l' => S (weight e + sum l')
            end) elements)
  | JObject properties =>
      S ((fix sum (l : list (string * JsValue)) : nat :=
            match l with
            | [] => O
            | (_, e) :: l' => S (weight e + sum l')
            end) properties)
  | _ => 1
  end.

Fixpoint blank (s : string) : bool :=
  match s with
  | EmptyString => true
  | String c rest => is_ws c && blank rest
  end.

Fixpoint has_line_break (s : string) : bool :=
  match s with
  | EmptyString => false
  | String c rest => (c =? LF)%char || (c =? CR)%char || has_line_break rest
  end.

(** One line: a single line feed, and it is the last character. *)
Fixpoint single_line (s : string) : bool :=
  match s with
  | EmptyString => false
  | String c rest =>
      if (c =? LF)%char then (rest =? EmptyString)
      else if (c =? CR)%char then false
      else single_line rest
  end.

(** The ErrorReport record [{ error: message }] and the line that carries it. *)
Definition ErrorReport (message : string) : JsValue :=
  JObject [("error", JString message)].

Definition report_line (message : string) : string :=
  "{" ++ QuoteJSONString "error" ++ ":" ++ QuoteJSONString message ++ "}" ++ NL.

(** The configuration of the source for a given search term. *)
Definition config_for (term : JsValue) : RetrievalConfig :=
  {| searchTerm := term;
     prettyURLs := true;
     timeframe := "7d";
     puppeteerArgs := ["--no-sandbox"; "--disable-setuid-sandbox"];
     logLevel := "error";
     limit := 15 |}.

Definition with_searchTerm (term : JsValue) (config : RetrievalConfig)
  : RetrievalConfig :=
  {| searchTerm := term;
     prettyURLs := prettyURLs config;
     timeframe := timeframe config;
     puppeteerArgs := puppeteerArgs config;
     logLevel := logLevel config;
     limit := limit config |}.

(** Induction over values, through the lists nested in them. *)
Definition JsValue_induction (P : JsValue -> Prop)
  (Hundefined : P JUndefined) (Hnull : P JNull)
  (Hbool : forall b, P (JBool b))
  (Hnumber : forall n, P (JNumber n))
  (Hbigint : forall n, P (JBigInt n))
  (Hstring : forall s, P (JString s))
  (Harray : forall elements, Forall P elements -> P (JArray elements))
  (Hobject : forall properties,
      Forall (fun kv => P (snd kv)) properties -> P (JObject properties))
  (Herror : forall name message, P (JError name message))
  : forall v, P v :=
  fix go (v : JsValue) : P v :=
    match v with
    | JUndefined => Hundefined
    | JNull => Hnull
    | JBool b => Hbool b
    | JNumber n => Hnumber n
    | JBigInt n => Hbigint n
    | JString s => Hstring s
    | JArray elements =>
        Harray elements
          ((fix all (l : list JsValue) : Forall P l :=
              match l with
              | [] => Forall_nil P
              | e :: l' => Forall_cons e (go e) (all l')
              end) elements)
    | JObject properties =>
        Hobject properties
          ((fix all (l : list (string * JsValue))
              : Forall (fun kv => P (snd kv)) l :=
              match l with
              | [] => Forall_nil _
              | kv :: l' => Forall_cons kv (go (snd kv)) (all l')
              end) properties)
    | JError name message => Herror name message
    end.

(** The failure the handler of [main] receives: a rejection of the
    Provider's promise, or an exception of the serialization of its result. *)
Definition caught (googleNewsScraper : RetrievalConfig -> Settlement)
  (term : string) (error : JsValue) : Prop :=
  googleNewsScraper (config_for (JString term)) = Rejected error
  \/ exists value,
      googleNewsScraper (config_for (JString term)) = Fulfilled value
      /\ JSON_stringify value (JNumber 2) = Throw error.

(** The one exception [JSON.stringify] raises on the values represented. *)
Definition bigint_error : JsValue :=
  JError "TypeError" "Do not know how to serialize a BigInt".

(** ** Auxiliary notions of the proofs *)

Definition number_start (c : ascii) : bool :=
  (c =? "-")%char || match digit_of c with Some _ => true | None => false end.

Definition reads_back (pv : string -> option (JsValue * string))
  (text_of : JsValue -> string) (e : JsValue) : Prop :=
  forall w tail, blank w = true -> number_end tail = true ->
    pv (w ++ text_of e ++ tail) = Some (e, tail).

Ltac each_ascii c := destruct c as [[] [] [] [] [] [] [] []].

(** ** What [JSON.stringify] keeps of a value *)

(** A BigInt somewhere in the value, at any depth. *)
Fixpoint has_bigint (v : JsValue) : bool :=
  match v with
  | JBigInt _ => true
  | JArray elements => existsb has_bigint elements
  | JObject properties => existsb (fun kv => has_bigint (snd kv)) properties
  | JUndefined | JNull | JBool _ | JNumber _ | JString _ | JError _ _ => false
  end.

(** The value that the text written for [v] denotes: a property whose value
    is [undefined] is gone, an [undefined] element of an array is [null], an
    Error instance is an object without properties. *)
Fixpoint json_image (v : JsValue) : JsValue :=
  match v with
  | JUndefined => JNull
  | JArray elements => JArray (map json_image elements)
  | JObject properties =>
      JObject
        ((fix each (l : list (string * JsValue)) : list (string * JsValue) :=
            match l with
            | [] => []
            | (key, e) :: l' =>
                match e with
                | JUndefined => each l'
                | _ => (key, json_image e) :: each l'
                end
            end) properties)
  | JError _ _ => JObject []
  | JNull | JBool _ | JNumber _ | JBigInt _ | JString _ => v
  end.

(** Every number in the value is a safe integer, at any depth. *)
Fixpoint safe_numbers (v : JsValue) : bool :=
  match v with
  | JNumber n => safe_integer n
  | JArray elements => forallb safe_numbers elements
  | JObject properties => forallb (fun kv => safe_numbers (snd kv)) properties
  | JUndefined | JNull | JBool _ | JBigInt _ | JString _ | JError _ _ => true
  end.

(** ** Indentation *)




(** * Properties *)

(** ** Strings *)

Lemma append_assoc (a b c : string) : (a ++ b) ++ c = a ++ (b ++ c).
Proof. induction a as [|x a IH]; simpl; [reflexivity | now rewrite IH]. Qed.

Lemma append_empty_r (a : string) : a ++ EmptyString = a.
Proof. induction a as [|x a IH]; simpl; [reflexivity | now rewrite IH]. Qed.

Lemma length_append (a b : string) :
  String.length (a ++ b) = String.length a + String.length b.
Proof. induction a as [|x a IH]; simpl; [reflexivity | now rewrite IH]. Qed.

Lemma blank_append (a b : string) : blank (a ++ b) = blank a && blank b.
Proof.
  induction a as [|x a IH]; simpl; [reflexivity|].
  now rewrite IH, andb_assoc.
Qed.

Lemma blank_spaces (n : nat) : blank (spaces n) = true.
Proof. induction n; simpl; auto. Qed.

Lemma skip_ws_blank (w s : string) :
  blank w = true -> skip_ws (w ++ s) = skip_ws s.
Proof.
  induction w as [|x w IH]; simpl; [reflexivity|].
  intros H. apply andb_true_iff in H as [Hx Hw]. now rewrite Hx, IH.
Qed.

Lemma has_line_break_append (a b : string) :
  has_line_break (a ++ b) = has_line_break a || has_line_break b.
Proof.
  induction a as [|x a IH]; simpl; [reflexivity|].
  now rewrite IH, !orb_assoc.
Qed.

Lemma single_line_intro (body : string) :
  has_line_break body = false -> single_line (body ++ NL) = true.
Proof.
  induction body as [|x body IH]; simpl; [reflexivity|].
  intros H. apply orb_false_iff in H as [H1 H]. apply orb_false_iff in H1 as [Hlf Hcr].
  rewrite Hlf, Hcr. auto.
Qed.

(** ** Quoted strings *)

Lemma escape_char_no_line_break (c : ascii) :
  has_line_break (escape_char c) = false.
Proof. each_ascii c; reflexivity. Qed.

Lemma escape_string_no_line_break (s : string) :
  has_line_break (escape_string s) = false.
Proof.
  induction s as [|c s IH]; simpl; [reflexivity|].
  now rewrite has_line_break_append, escape_char_no_line_break, IH.
Qed.

Lemma QuoteJSONString_no_line_break (s : string) :
  has_line_break (QuoteJSONString s) = false.
Proof.
  unfold QuoteJSONString. cbn [has_line_break].
  rewrite has_line_break_append, escape_string_no_line_break. reflexivity.
Qed.

Lemma read_string_escape_char (c : ascii) (tail : string) :
  read_string (escape_char c ++ tail) =
  match read_string tail with
  | Some (str, t) => Some (String c str, t)
  | None => None
  end.
Proof. each_ascii c; cbn; destruct (read_string tail) as [[str t]|]; reflexivity. Qed.

Lemma read_string_escape_string (s tail : string) :
  read_string (escape_string s ++ String DQUOTE tail) = Some (s, tail).
Proof.
  induction s as [|c s IH]; [reflexivity|].
  cbn [escape_string]. rewrite append_assoc, read_string_escape_char, IH.
  reflexivity.
Qed.

Lemma read_string_quoted (s tail : string) :
  exists body, QuoteJSONString s ++ tail = String DQUOTE body
               /\ read_string body = Some (s, tail).
Proof.
  exists (escape_string s ++ String DQUOTE tail). split.
  - unfold QuoteJSONString. cbn [append]. now rewrite append_assoc.
  - apply read_string_escape_string.
Qed.

(** ** Numbers *)

Lemma read_digits_stop (tail : string) :
  number_end tail = true -> read_digits tail = (Decimal.Nil, tail).
Proof.
  destruct tail as [|c tail]; [reflexivity|].
  cbn. destruct (digit_of c); [discriminate | reflexivity].
Qed.

Lemma read_digits_print (u : Decimal.uint) (tail : string) :
  number_end tail = true ->
  read_digits (NilEmpty.string_of_uint u ++ tail) = (u, tail).
Proof.
  intros Hend.
  induction u; [now apply read_digits_stop | ..];
    cbn [NilEmpty.string_of_uint append read_digits]; cbn [digit_of Ascii.eqb Bool.eqb];
    cbn; rewrite IHu; reflexivity.
Qed.

Lemma nzhead_not_zero (d u : Decimal.uint) : Decimal.nzhead d <> Decimal.D0 u.
Proof. induction d; cbn; try discriminate; assumption. Qed.

Lemma plain_digits_unorm (d : Decimal.uint) : plain_digits (Decimal.unorm d) = true.
Proof.
  unfold Decimal.unorm. pose proof (nzhead_not_zero d) as H.
  destruct (Decimal.nzhead d); try reflexivity. now elim (H u).
Qed.

Lemma to_uint_unorm (p : positive) : Decimal.unorm (Pos.to_uint p) = Pos.to_uint p.
Proof.
  rewrite <- DecimalPos.Unsigned.to_of, DecimalPos.Unsigned.of_to. reflexivity.
Qed.

Lemma plain_digits_to_uint (p : positive) : plain_digits (Pos.to_uint p) = true.
Proof. rewrite <- to_uint_unorm. apply plain_digits_unorm. Qed.

Lemma string_of_plain (u : Decimal.uint) :
  plain_digits u = true -> NilZero.string_of_uint u = NilEmpty.string_of_uint u.
Proof. destruct u; [discriminate | reflexivity ..]. Qed.

Lemma read_unsigned_print (u : Decimal.uint) (tail : string) :
  plain_digits u = true -> number_end tail = true ->
  safe_integer (Z.of_uint u) = true ->
  read_unsigned (NilZero.string_of_uint u ++ tail) = Some (Z.of_uint u, tail).
Proof.
  intros Hu Hend Hsafe. unfold read_unsigned.
  rewrite string_of_plain, read_digits_print, Hu, Hend, Hsafe by assumption.
  reflexivity.
Qed.

Lemma string_of_plain_head (u : Decimal.uint) :
  plain_digits u = true ->
  exists c r, NilZero.string_of_uint u = String c r
              /\ digit_of c <> None /\ (c =? "-")%char = false.
Proof.
  intros Hu. rewrite string_of_plain by assumption.
  destruct u; [discriminate | ..]; cbn; eexists; eexists;
    (split; [reflexivity | split; [discriminate | reflexivity]]).
Qed.

Lemma read_number_plain (u : Decimal.uint) (tail : string) :
  plain_digits u = true -> number_end tail = true ->
  safe_integer (Z.of_uint u) = true ->
  read_number (NilZero.string_of_uint u ++ tail) = Some (Z.of_uint u, tail).
Proof.
  intros Hu Hend Hsafe.
  destruct (string_of_plain_head u Hu) as (c & r & Hs & _ & Hminus).
  pose proof (read_unsigned_print u tail Hu Hend Hsafe) as Hr.
  rewrite Hs in *. cbn [append read_number] in *. now rewrite Hminus, Hr.
Qed.

Lemma of_uint_to_uint (p : positive) : Z.of_uint (Pos.to_uint p) = Z.pos p.
Proof. unfold Z.of_uint. now rewrite DecimalPos.Unsigned.of_to. Qed.

Lemma safe_integer_opp (n : Z) : safe_integer (- n) = safe_integer n.
Proof. unfold safe_integer. now rewrite Z.abs_opp. Qed.

Lemma read_number_print (n : Z) (tail : string) :
  number_end tail = true -> safe_integer n = true ->
  read_number (Number_toString n ++ tail) = Some (n, tail).
Proof.
  intros Hend Hsafe. unfold Number_toString.
  destruct n as [|p|p]; cbn [Z.to_int NilZero.string_of_int].
  - apply (read_number_plain (Decimal.D0 Decimal.Nil) tail eq_refl Hend Hsafe).
  - assert (Hpos : safe_integer (Z.of_uint (Pos.to_uint p)) = true)
      by (rewrite of_uint_to_uint; exact Hsafe).
    rewrite (read_number_plain (Pos.to_uint p) tail
               (plain_digits_to_uint p) Hend Hpos).
    now rewrite of_uint_to_uint.
  - assert (Hpos : safe_integer (Z.of_uint (Pos.to_uint p)) = true).
    { rewrite of_uint_to_uint. rewrite <- Hsafe.
      exact (eq_sym (safe_integer_opp (Z.pos p))). }
    cbn [append read_number]. cbn [Ascii.eqb Bool.eqb].
    rewrite (read_unsigned_print (Pos.to_uint p) tail
               (plain_digits_to_uint p) Hend Hpos), of_uint_to_uint.
    reflexivity.
Qed.

Lemma Number_toString_head (n : Z) :
  exists c r, Number_toString n = String c r /\ number_start c = true.
Proof.
  unfold Number_toString, number_start.
  destruct n as [|p|p]; cbn [Z.to_int NilZero.string_of_int].
  - eexists; eexists; split; reflexivity.
  - destruct (string_of_plain_head (Pos.to_uint p) (plain_digits_to_uint p))
      as (c & r & Hs & Hd & Hminus).
    exists c, r. split; [assumption|]. rewrite Hminus.
    destruct (digit_of c); [reflexivity | contradiction].
  - eexists; eexists; split; reflexivity.
Qed.

Lemma read_value_dispatch_number (fuel : nat) (w : string) (c : ascii) (r : string) :
  blank w = true -> number_start c = true ->
  read_value (S fuel) (w ++ String c r) =
  match read_number (String c r) with
  | Some (n, tail) => Some (JNumber n, tail)
  | None => None
  end.
Proof.
  intros Hw Hc. cbn [read_value]. rewrite skip_ws_blank by assumption.
  each_ascii c; try discriminate Hc; reflexivity.
Qed.

Lemma read_value_number (fuel : nat) (n : Z) (w tail : string) :
  blank w = true -> number_end tail = true -> safe_integer n = true ->
  read_value (S fuel) (w ++ Number_toString n ++ tail) = Some (JNumber n, tail).
Proof.
  intros Hw Hend Hsafe.
  destruct (Number_toString_head n) as (c & r & Hs & Hc).
  pose proof (read_number_print n tail Hend Hsafe) as Hr.
  rewrite Hs in *. cbn [append] in *.
  rewrite read_value_dispatch_number, Hr by assumption. reflexivity.
Qed.

(** ** Reading back what [json_text] writes *)

Lemma number_end_blank (post : string) (c : ascii) (x : string) :
  blank post = true -> number_end (String c x) = true ->
  number_end (post ++ String c x) = true.
Proof.
  destruct post as [|b post]; [auto|].
  cbn [blank append]. intros H _. apply andb_true_iff in H as [Hb _].
  revert Hb. each_ascii b; try discriminate; reflexivity.
Qed.

Lemma bracketed_shape (opening closing gap stepback indent : string)
  (partial : list string) :
  blank gap = true -> blank stepback = true -> blank indent = true ->
  partial <> [] ->
  exists pre post,
    blank pre = true /\ blank post = true /\
    bracketed opening closing gap stepback indent partial =
    opening ++ pre ++ String.concat (String "," pre) partial ++ post ++ closing.
Proof.
  intros Hgap Hstep Hind Hne. unfold bracketed.
  destruct partial as [|x xs]; [congruence|].
  destruct (gap =? EmptyString).
  - exists EmptyString, EmptyString. repeat split.
  - exists (NL ++ indent), (NL ++ stepback).
    split; [exact Hind|]. split; [exact Hstep|].
    now rewrite !append_assoc.
Qed.

Lemma member_shape (gap : string) :
  exists sp, blank sp = true /\
    forall key text,
      member gap key text = QuoteJSONString key ++ String ":" (sp ++ text).
Proof.
  unfold member. destruct (gap =? EmptyString).
  - now exists EmptyString.
  - now exists " ".
Qed.

Lemma read_elements_close (fuel n : nat) (tail : string) :
  read_elements (read_value fuel) n (String "]" tail) = None.
Proof. destruct n; [reflexivity|]. destruct fuel; reflexivity. Qed.

Lemma read_members_close (fuel n : nat) (tail : string) :
  read_members (read_value fuel) n (String "}" tail) = None.
Proof. destruct n; reflexivity. Qed.

Section Reading.

Variable pv : string -> option (JsValue * string).
Variable text_of : JsValue -> string.

Lemma read_elements_print (pre post : string) (l : list JsValue) :
  blank pre = true -> blank post = true ->
  l <> [] -> Forall (reads_back pv text_of) l ->
  forall n tail, length l <= n ->
    read_elements pv n
      (pre ++ String.concat (String "," pre) (map text_of l)
         ++ post ++ String "]" tail)
    = Some (l, tail).
Proof.
  intros Hpre Hpost Hne Hall.
  induction Hall as [|e l He Hall IH]; [congruence|].
  intros n tail Hn. destruct n as [|n]; [cbn in Hn; lia|].
  cbn [read_elements]. destruct l as [|e' l].
  - cbn [map String.concat].
    rewrite He by auto using number_end_blank.
    rewrite skip_ws_blank by assumption. reflexivity.
  - change (String.concat (String "," pre) (map text_of (e :: e' :: l)))
      with (text_of e ++ String "," pre
              ++ String.concat (String "," pre) (map text_of (e' :: l))).
    rewrite !append_assoc. cbn [append].
    rewrite He by auto.
    cbn [skip_ws]. change (is_ws ",") with false.
    change ("," =? ",")%char with true. cbv iota.
    rewrite IH; [reflexivity | discriminate | cbn in Hn |- *; lia].
Qed.

Lemma read_members_print (pre post sp : string) (l : list (string * JsValue)) :
  blank pre = true -> blank post = true -> blank sp = true ->
  l <> [] -> Forall (fun kv => reads_back pv text_of (snd kv)) l ->
  forall n tail, length l <= n ->
    read_members pv n
      (pre ++ String.concat (String "," pre)
                (map (fun kv => QuoteJSONString (fst kv)
                                  ++ String ":" (sp ++ text_of (snd kv))) l)
         ++ post ++ String "}" tail)
    = Some (l, tail).
Proof.
  intros Hpre Hpost Hsp Hne Hall.
  induction Hall as [|[key e] l He Hall IH]; [congruence|].
  intros n tail Hn. destruct n as [|n]; [cbn in Hn; lia|].
  cbn [read_members]. rewrite skip_ws_blank by assumption.
  cbn [snd] in He. destruct l as [|kv' l].
  - cbn [map String.concat fst snd].
    rewrite !append_assoc. cbn [append]. rewrite !append_assoc.
    match goal with
    | |- context [QuoteJSONString ?k ++ ?X] =>
        destruct (read_string_quoted k X) as (body & Hb & Hr); rewrite Hb
    end.
    cbn [skip_ws]. change (is_ws DQUOTE) with false.
    change (DQUOTE =? DQUOTE)%char with true. cbv iota. rewrite Hr.
    cbn [skip_ws]. change (is_ws ":") with false.
    change (":" =? ":")%char with true. cbv iota.
    rewrite He by auto using number_end_blank.
    rewrite skip_ws_blank by assumption. reflexivity.
  - match goal with
    | |- context [String.concat ?sep (map ?f ((key, e) :: kv' :: l))] =>
        change (String.concat sep (map f ((key, e) :: kv' :: l)))
          with (f (key, e) ++ sep ++ String.concat sep (map f (kv' :: l)))
    end.
    cbn [fst snd]. rewrite !append_assoc. cbn [append]. rewrite !append_assoc.
    match goal with
    | |- context [QuoteJSONString ?k ++ ?X] =>
        destruct (read_string_quoted k X) as (body & Hb & Hr); rewrite Hb
    end.
    cbn [skip_ws]. change (is_ws DQUOTE) with false.
    change (DQUOTE =? DQUOTE)%char with true. cbv iota. rewrite Hr.
    cbn [skip_ws]. change (is_ws ":") with false.
    change (":" =? ":")%char with true. cbv iota.
    rewrite He by auto.
    cbn [skip_ws]. change (is_ws ",") with false.
    change ("," =? ",")%char with true. cbv iota.
    rewrite IH; [reflexivity | discriminate | cbn in Hn |- *; lia].
Qed.

End Reading.

Lemma weight_array (l : list JsValue) :
  weight (JArray l) = S (list_sum (map (fun e => S (weight e)) l)).
Proof.
  cbn [weight]. f_equal.
  induction l as [|e l IH]; [reflexivity|]. simpl in *. now rewrite <- IH.
Qed.

Lemma weight_object (l : list (string * JsValue)) :
  weight (JObject l) = S (list_sum (map (fun kv => S (weight (snd kv))) l)).
Proof.
  cbn [weight]. f_equal.
  induction l as [|[k e] l IH]; [reflexivity|]. simpl in *. now rewrite <- IH.
Qed.

Lemma list_sum_bounds {A} (f : A -> nat) (l : list A) :
  length l <= list_sum (map (fun x => S (f x)) l)
  /\ Forall (fun x => f x <= list_sum (map (fun x => S (f x)) l)) l.
Proof.
  induction l as [|x l [IHlen IHall]]; [split; [apply le_n | constructor]|].
  change (list_sum (map (fun x => S (f x)) (x :: l)))
    with (S (f x) + list_sum (map (fun x => S (f x)) l)).
  cbn [length]. split; [lia|].
  constructor; [lia|]. eapply Forall_impl; [|exact IHall]. cbn beta. intros; lia.
Qed.

Lemma read_value_print (gap : string) (Hgap : blank gap = true) (v : JsValue) :
  json_serializable v = true ->
  forall indent fuel w tail,
    blank indent = true -> blank w = true -> number_end tail = true ->
    weight v <= fuel ->
    read_value fuel (w ++ json_text gap indent v ++ tail) = Some (v, tail).
Proof.
  induction v as [| |b|n|n|s|l IH|l IH|name message] using JsValue_induction;
    intros Hser indent fuel w tail Hind Hw Hend Hfuel;
    try discriminate Hser;
    (destruct fuel as [|fuel]; [cbn in Hfuel; lia|]).
  - cbn [read_value json_text]. rewrite skip_ws_blank by assumption. reflexivity.
  - cbn [read_value json_text]. rewrite skip_ws_blank by assumption.
    destruct b; reflexivity.
  - now apply read_value_number.
  - cbn [read_value json_text].
    destruct (read_string_quoted s tail) as (body & Hb & Hr).
    rewrite skip_ws_blank, Hb by assumption.
    cbn [skip_ws]. change (is_ws DQUOTE) with false. cbv iota.
    cbn [Ascii.eqb Bool.eqb DQUOTE]. now rewrite Hr.
  - rewrite weight_array in Hfuel. cbn [json_text read_value].
    rewrite skip_ws_blank by assumption.
    destruct l as [|e l].
    + cbn. rewrite read_elements_close. reflexivity.
    + destruct (bracketed_shape "[" "]" gap indent (indent ++ gap)
                  (map (json_text gap (indent ++ gap)) (e :: l)))
        as (pre & post & Hpre & Hpost & Hshape);
        [assumption | assumption | now rewrite blank_append, Hind, Hgap
        | discriminate |].
      rewrite Hshape. rewrite ?append_assoc. cbn [append skip_ws].
      change (is_ws "[") with false. cbv iota.
      cbn [Ascii.eqb Bool.eqb]. rewrite ?append_assoc. cbn [append].
      destruct (list_sum_bounds weight (e :: l)) as [Hlen Hall].
      rewrite (read_elements_print (read_value fuel)
                 (json_text gap (indent ++ gap)) pre post (e :: l));
        [reflexivity | assumption | assumption | discriminate | | lia].
      cbn [json_serializable] in Hser. rewrite forallb_forall in Hser.
      rewrite Forall_forall in IH, Hall |- *. intros x Hx w' tail' Hw' Hend'.
      apply IH; auto.
      * now rewrite blank_append, Hind, Hgap.
      * specialize (Hall x Hx). cbn beta in Hall. lia.
  - rewrite weight_object in Hfuel. cbn [json_text read_value].
    rewrite skip_ws_blank by assumption.
    destruct l as [|kv l].
    + cbn. rewrite read_members_close. reflexivity.
    + destruct (bracketed_shape "{" "}" gap indent (indent ++ gap)
                  (map (fun kv => member gap (fst kv)
                                    (json_text gap (indent ++ gap) (snd kv)))
                     (kv :: l)))
        as (pre & post & Hpre & Hpost & Hshape);
        [assumption | assumption | now rewrite blank_append, Hind, Hgap
        | discriminate |].
      destruct (member_shape gap) as (sp & Hsp & Hmember).
      rewrite Hshape.
      rewrite (map_ext _ (fun kv => QuoteJSONString (fst kv)
                 ++ String ":" (sp ++ json_text gap (indent ++ gap) (snd kv))))
        by (intros; apply Hmember).
      rewrite ?append_assoc. cbn [append skip_ws].
      change (is_ws "{") with false. cbv iota.
      cbn [Ascii.eqb Bool.eqb]. rewrite ?append_assoc. cbn [append].
      destruct (list_sum_bounds (fun kv => weight (snd kv)) (kv :: l))
        as [Hlen Hall].
      rewrite (read_members_print (read_value fuel)
                 (json_text gap (indent ++ gap)) pre post sp (kv :: l));
        [reflexivity | assumption | assumption | assumption | discriminate | | lia].
      cbn [json_serializable] in Hser. rewrite forallb_forall in Hser.
      rewrite Forall_forall in IH, Hall |- *. intros x Hx w' tail' Hw' Hend'.
      apply IH; auto.
      * now rewrite blank_append, Hind, Hgap.
      * specialize (Hall x Hx). cbn beta in Hall. lia.
Qed.

Lemma length_concat (sep : string) (l : list string) :
  1 <= String.length sep ->
  list_sum (map (fun t => S (String.length t)) l)
  <= S (String.length (String.concat sep l)).
Proof.
  intros Hsep. induction l as [|x l IH]; [cbn; lia|].
  change (list_sum (map (fun t => S (String.length t)) (x :: l)))
    with (S (String.length x) + list_sum (map (fun t => S (String.length t)) l)).
  destruct l as [|y l]; [cbn; lia|].
  change (String.concat sep (x :: y :: l))
    with (x ++ sep ++ String.concat sep (y :: l)).
  rewrite !length_append. lia.
Qed.

Lemma length_bracketed (opening closing gap stepback indent : string)
  (partial : list string) :
  String.length opening + String.length closing
    + list_sum (map (fun t => S (String.length t)) partial)
  <= S (String.length (bracketed opening closing gap stepback indent partial)).
Proof.
  unfold bracketed. destruct partial as [|x xs].
  - rewrite length_append. cbn. lia.
  - destruct (gap =? EmptyString).
    + pose proof (length_concat "," (x :: xs)) as H.
      rewrite !length_append. cbn [String.length] in H. lia.
    + pose proof (length_concat ("," ++ NL ++ indent) (x :: xs)) as H.
      rewrite !length_append. rewrite length_append in H.
      cbn [String.length] in H. lia.
Qed.

Lemma list_sum_le {A} (f g : A -> nat) (l : list A) :
  Forall (fun x => f x <= g x) l ->
  list_sum (map (fun x => S (f x)) l) <= list_sum (map (fun x => S (g x)) l).
Proof.
  induction 1 as [|x l Hx _ IH]; [apply le_n|].
  change (list_sum (map (fun x => S (f x)) (x :: l)))
    with (S (f x) + list_sum (map (fun x => S (f x)) l)).
  change (list_sum (map (fun x => S (g x)) (x :: l)))
    with (S (g x) + list_sum (map (fun x => S (g x)) l)).
  lia.
Qed.

Lemma weight_le_length (gap : string) (v : JsValue) :
  json_serializable v = true ->
  forall indent, weight v <= String.length (json_text gap indent v).
Proof.
  induction v as [| |b|n|n|s|l IH|l IH|name message] using JsValue_induction;
    intros Hser indent; try discriminate Hser.
  - cbn. lia.
  - destruct b; cbn; lia.
  - cbn [weight json_text].
    destruct (Number_toString_head n) as (c & r & Hs & _). rewrite Hs. cbn. lia.
  - cbn. lia.
  - rewrite weight_array. cbn [json_text].
    pose proof (length_bracketed "[" "]" gap indent (indent ++ gap)
                  (map (json_text gap (indent ++ gap)) l)) as H.
    rewrite map_map in H. cbn [String.length] in H.
    enough (list_sum (map (fun e => S (weight e)) l)
            <= list_sum (map (fun e => S (String.length
                                            (json_text gap (indent ++ gap) e))) l))
      by lia.
    apply list_sum_le.
    cbn [json_serializable] in Hser. rewrite forallb_forall in Hser.
    rewrite Forall_forall in IH |- *. intros x Hx. apply IH; auto.
  - rewrite weight_object. cbn [json_text].
    pose proof (length_bracketed "{" "}" gap indent (indent ++ gap)
                  (map (fun kv => member gap (fst kv)
                                    (json_text gap (indent ++ gap) (snd kv))) l))
      as H.
    rewrite map_map in H. cbn [String.length] in H.
    enough (list_sum (map (fun kv => S (weight (snd kv))) l)
            <= list_sum (map (fun kv => S (String.length
                       (member gap (fst kv)
                          (json_text gap (indent ++ gap) (snd kv))))) l))
      by lia.
    apply (list_sum_le (fun kv => weight (snd kv))).
    cbn [json_serializable] in Hser. rewrite forallb_forall in Hser.
    rewrite Forall_forall in IH |- *. intros x Hx.
    specialize (IH x Hx (Hser x Hx) (indent ++ gap)).
    unfold member. rewrite !length_append. lia.
Qed.

(** A serializable value, written under a blank gap and followed by blanks,
    is read back unchanged. *)
Lemma JSON_parse_json_text (gap indent trailer : string) (v : JsValue) :
  blank gap = true -> blank indent = true -> blank trailer = true ->
  json_serializable v = true ->
  JSON_parse (json_text gap indent v ++ trailer) = Some v.
Proof.
  intros Hgap Hind Htr Hser. unfold JSON_parse.
  pose proof (read_value_print gap Hgap v Hser indent
                (S (String.length (json_text gap indent v ++ trailer)))
                EmptyString trailer Hind eq_refl) as H.
  cbn [append] in H. rewrite H.
  - rewrite <- (append_empty_r trailer), skip_ws_blank by assumption. reflexivity.
  - destruct trailer as [|c t]; [reflexivity|].
    cbn [blank] in Htr. apply andb_true_iff in Htr as [Hc _].
    revert Hc. each_ascii c; try discriminate; reflexivity.
  - pose proof (weight_le_length gap v Hser indent). rewrite length_append. lia.
Qed.

(** ** [JSON.stringify] on serializable values, and when it throws *)

Lemma SerializeJSONProperty_serializable (gap : string) (v : JsValue) :
  json_serializable v = true ->
  forall indent,
    SerializeJSONProperty gap indent v = Normal (Some (json_text gap indent v)).
Proof.
  induction v as [| |b|n|n|s|l IH|l IH|name message] using JsValue_induction;
    intros Hser indent; try discriminate Hser; try reflexivity.
  - destruct b; reflexivity.
  - cbn [json_serializable] in Hser. cbn [SerializeJSONProperty json_text].
    match goal with
    | |- match ?each l with _ => _ end = _ =>
        assert (Heach : each l = Normal (map (json_text gap (indent ++ gap)) l))
    end.
    { induction IH as [|e l He _ IHl]; [reflexivity|].
      cbn [forallb] in Hser. apply andb_true_iff in Hser as [Hse Hsl].
      rewrite He, IHl by assumption. reflexivity. }
    rewrite Heach. reflexivity.
  - cbn [json_serializable] in Hser. cbn [SerializeJSONProperty json_text].
    match goal with
    | |- match ?each l with _ => _ end = _ =>
        assert (Heach : each l
                        = Normal (map (fun kv => member gap (fst kv)
                                    (json_text gap (indent ++ gap) (snd kv))) l))
    end.
    { induction IH as [|[k e] l He _ IHl]; [reflexivity|].
      cbn [forallb snd] in Hser, He. apply andb_true_iff in Hser as [Hse Hsl].
      rewrite He, IHl by assumption. reflexivity. }
    rewrite Heach. reflexivity.
Qed.

Lemma SerializeJSONProperty_throws (gap : string) (v : JsValue) :
  forall indent e,
    SerializeJSONProperty gap indent v = Throw e -> e = bigint_error.
Proof.
  induction v as [| |b|n|n|s|l IH|l IH|name message] using JsValue_induction;
    intros indent e H; try discriminate H.
  - destruct b; discriminate H.
  - now inversion H.
  - cbn [SerializeJSONProperty] in H.
    match type of H with
    | match ?each l with _ => _ end = _ =>
        assert (Heach : forall err, each l = Throw err -> err = bigint_error)
    end.
    { induction IH as [|x l Hx _ IHl]; [discriminate|].
      intros err.
      destruct (SerializeJSONProperty gap (indent ++ gap) x) eqn:Ex;
        [|intros Hthrow; inversion Hthrow; subst; eauto].
      match goal with
      | |- match ?each l with _ => _ end = _ -> _ =>
          destruct (each l) eqn:El; [discriminate|]
      end.
      intros Hthrow; inversion Hthrow; subst. now apply IHl. }
    match type of H with
    | match ?each l with _ => _ end = _ =>
        destruct (each l) eqn:El; [discriminate|]
    end.
    inversion H; subst. now apply Heach.
  - cbn [SerializeJSONProperty] in H.
    match type of H with
    | match ?each l with _ => _ end = _ =>
        assert (Heach : forall err, each l = Throw err -> err = bigint_error)
    end.
    { induction IH as [|[k x] l Hx _ IHl]; [discriminate|].
      intros err. cbn [snd] in Hx.
      destruct (SerializeJSONProperty gap (indent ++ gap) x) eqn:Ex;
        [|intros Hthrow; inversion Hthrow; subst; eauto].
      match goal with
      | |- match ?each l with _ => _ end = _ -> _ =>
          destruct (each l) eqn:El; [discriminate|]
      end.
      intros Hthrow; inversion Hthrow; subst. now apply IHl. }
    match type of H with
    | match ?each l with _ => _ end = _ =>
        destruct (each l) eqn:El; [discriminate|]
    end.
    inversion H; subst. now apply Heach.
Qed.

(** ** Error reports *)

Lemma stringify_ErrorReport (message : string) :
  JSON_stringify (JObject [("error", JString message)]) JUndefined
  = Normal (Some ("{" ++ QuoteJSONString "error" ++ ":"
                    ++ QuoteJSONString message ++ "}")).
Proof.
  unfold JSON_stringify. cbn [gap_of_space].
  rewrite (SerializeJSONProperty_serializable EmptyString
             (JObject [("error", JString message)]) eq_refl).
  cbn [json_text map fst snd bracketed String.eqb String.concat member].
  now rewrite ?append_assoc.
Qed.

Lemma format_ErrorReport (message : string) :
  format_line (Some ("{" ++ QuoteJSONString "error" ++ ":"
                       ++ QuoteJSONString message ++ "}"))
  = report_line message.
Proof. unfold format_line, report_line. now rewrite ?append_assoc. Qed.

Lemma report_line_single (message : string) :
  single_line (report_line message) = true.
Proof.
  unfold report_line.
  replace ("{" ++ QuoteJSONString "error" ++ ":" ++ QuoteJSONString message
             ++ "}" ++ NL)
    with (("{" ++ QuoteJSONString "error" ++ ":" ++ QuoteJSONString message
             ++ "}") ++ NL)
    by now rewrite ?append_assoc.
  apply single_line_intro.
  rewrite !has_line_break_append, !QuoteJSONString_no_line_break. reflexivity.
Qed.

Lemma report_line_parse (message : string) :
  JSON_parse (report_line message) = Some (ErrorReport message).
Proof.
  rewrite <- (JSON_parse_json_text EmptyString EmptyString NL (ErrorReport message))
    by reflexivity.
  f_equal. unfold report_line.
  cbn [ErrorReport json_text map fst snd bracketed String.eqb String.concat member].
  now rewrite ?append_assoc.
Qed.

(** ** The runs of [main] *)

Section Runs.

Variable googleNewsScraper : RetrievalConfig -> Settlement.
Variable argv : list string.

Lemma main_missing :
  ToBoolean (process_argv argv 2) = false ->
  main googleNewsScraper argv []
  = (Exited 1, [Stderr (report_line "No search term provided.")]).
Proof.
  intros H. unfold main, try_catch, bind. rewrite H. cbn [negb].
  rewrite stringify_ErrorReport. cbn [lift console_error emit app process_exit].
  now rewrite format_ErrorReport.
Qed.

Lemma run_missing :
  ToBoolean (process_argv argv 2) = false ->
  run googleNewsScraper argv
  = (Exited 1, [Stderr (report_line "No search term provided.")]).
Proof. intros H. unfold run. now rewrite main_missing. Qed.

Variable term : string.
Hypothesis Hterm : nth_error argv 2 = Some term.
Hypothesis Hnonempty : term <> EmptyString.

Lemma valid_term_truthy : ToBoolean (process_argv argv 2) = true.
Proof.
  unfold process_argv. rewrite Hterm. cbn.
  destruct (String.eqb_spec term EmptyString); [contradiction | reflexivity].
Qed.

Lemma main_fulfilled (value : JsValue) (text : option string) :
  googleNewsScraper (config_for (JString term)) = Fulfilled value ->
  JSON_stringify value (JNumber 2) = Normal text ->
  main googleNewsScraper argv []
  = (Returned tt, [Retrieve (config_for (JString term));
                   Stdout (format_line text)]).
Proof.
  intros Hp Hs. unfold main, try_catch, bind, await_call, bind.
  rewrite valid_term_truthy. unfold process_argv. rewrite Hterm.
  fold (config_for (JString term)). cbn [negb ret emit app].
  rewrite Hp. cbv beta iota delta [ret]. rewrite Hs. reflexivity.
Qed.

Lemma run_fulfilled (value : JsValue) (text : option string) :
  googleNewsScraper (config_for (JString term)) = Fulfilled value ->
  JSON_stringify value (JNumber 2) = Normal text ->
  run googleNewsScraper argv
  = (Returned tt, [Retrieve (config_for (JString term));
                   Stdout (format_line text)]).
Proof. intros Hp Hs. unfold run. now rewrite (main_fulfilled value text). Qed.

(** What the handler does with the value it receives, from the trace that
    holds the one retrieval. *)
Lemma main_caught_cases (error : JsValue) :
  caught googleNewsScraper term error ->
  main googleNewsScraper argv []
  = match rendered_message error with
    | Normal text =>
        (Exited 1, [Retrieve (config_for (JString term));
                    Stderr (report_line ("Scraper failed: " ++ text))])
    | Throw thrown => (Thrown thrown, [Retrieve (config_for (JString term))])
    end.
Proof.
  intros Hc. unfold main, try_catch, bind, await_call, bind.
  rewrite valid_term_truthy. unfold process_argv. rewrite Hterm.
  fold (config_for (JString term)). cbn [negb ret emit app].
  unfold rendered_message.
  destruct Hc as [Hp | (value & Hp & Hs)]; rewrite Hp;
    cbv beta iota delta [ret lift]; [|rewrite Hs; cbv beta iota];
    (destruct (read_message error) as [message|thrown]; [|reflexivity];
     destruct (ToString message) as [text|thrown]; [|reflexivity];
     rewrite stringify_ErrorReport;
     cbv beta iota delta [console_error emit process_exit]; cbn [app];
     now rewrite format_ErrorReport).
Qed.

Lemma run_caught (error : JsValue) (text : string) :
  caught googleNewsScraper term error ->
  rendered_message error = Normal text ->
  run googleNewsScraper argv
  = (Exited 1, [Retrieve (config_for (JString term));
                Stderr (report_line ("Scraper failed: " ++ text))]).
Proof.
  intros Hc Hm. unfold run. now rewrite (main_caught_cases error Hc), Hm.
Qed.

Lemma run_handler_throws (error thrown : JsValue) :
  caught googleNewsScraper term error ->
  rendered_message error = Throw thrown ->
  run googleNewsScraper argv
  = (Thrown thrown, [Retrieve (config_for (JString term)); Uncaught thrown]).
Proof.
  intros Hc Hm. unfold run. now rewrite (main_caught_cases error Hc), Hm.
Qed.

End Runs.

Lemma argv_cases (argv : list string) :
  (ToBoolean (process_argv argv 2) = false
   /\ (nth_error argv 2 = None \/ nth_error argv 2 = Some EmptyString))
  \/ exists term, nth_error argv 2 = Some term /\ term <> EmptyString.
Proof.
  unfold process_argv. destruct (nth_error argv 2) as [term|]; [|left; auto].
  destruct (String.eqb_spec term EmptyString) as [->|Hne].
  - left. auto.
  - right. now exists term.
Qed.

Lemma run_valid_cases (googleNewsScraper : RetrievalConfig -> Settlement)
  (argv : list string) (term : string) :
  nth_error argv 2 = Some term -> term <> EmptyString ->
  (exists value text,
      googleNewsScraper (config_for (JString term)) = Fulfilled value
      /\ JSON_stringify value (JNumber 2) = Normal text
      /\ run googleNewsScraper argv
         = (Returned tt, [Retrieve (config_for (JString term));
                          Stdout (format_line text)]))
  \/ (exists error text,
         caught googleNewsScraper term error
         /\ rendered_message error = Normal text
         /\ run googleNewsScraper argv
            = (Exited 1, [Retrieve (config_for (JString term));
                          Stderr (report_line ("Scraper failed: " ++ text))]))
  \/ (exists error thrown,
         caught googleNewsScraper term error
         /\ rendered_message error = Throw thrown
         /\ run googleNewsScraper argv
            = (Thrown thrown, [Retrieve (config_for (JString term));
                               Uncaught thrown])).
Proof.
  intros Hterm Hne.
  assert (Hsplit : forall error, caught googleNewsScraper term error ->
            (exists error text,
                caught googleNewsScraper term error
                /\ rendered_message error = Normal text
                /\ run googleNewsScraper argv
                   = (Exited 1, [Retrieve (config_for (JString term));
                        Stderr (report_line ("Scraper failed: " ++ text))]))
            \/ (exists error thrown,
                caught googleNewsScraper term error
                /\ rendered_message error = Throw thrown
                /\ run googleNewsScraper argv
                   = (Thrown thrown, [Retrieve (config_for (JString term));
                                      Uncaught thrown]))).
  { intros error Hc.
    destruct (rendered_message error) as [text|thrown] eqn:Hm; [left | right];
      exists error; eexists; (split; [exact Hc|]); (split; [exact Hm|]).
    - eapply run_caught; eauto.
    - eapply run_handler_throws; eauto. }
  destruct (googleNewsScraper (config_for (JString term))) as [value|reason] eqn:Hp.
  - destruct (JSON_stringify value (JNumber 2)) as [text|error] eqn:Hs.
    + left. exists value, text. repeat split; auto.
      eapply run_fulfilled; eauto.
    + right. apply (Hsplit error). right. now exists value.
  - right. apply (Hsplit reason). now left.
Qed.
Lemma SerializeJSONProperty_image (gap : string) (v : JsValue) :
  has_bigint v = false ->
  forall indent,
    SerializeJSONProperty gap indent v
    = Normal (match v with
              | JUndefined => None
              | _ => Some (json_text gap indent (json_image v))
              end).
Proof.
  induction v as [| |b|n|n|s|l IH|l IH|name message] using JsValue_induction;
    intros Hbig indent; try discriminate Hbig; try reflexivity.
  - destruct b; reflexivity.
  - cbn [has_bigint] in Hbig. cbn [SerializeJSONProperty json_image json_text].
    match goal with
    | |- match ?each l with _ => _ end = _ =>
        assert (Heach : each l
                        = Normal (map (json_text gap (indent ++ gap))
                                    (map json_image l)))
    end.
    { induction IH as [|e l He _ IHl]; [reflexivity|].
      cbn [existsb] in Hbig. apply orb_false_iff in Hbig as [Hbe Hbl].
      rewrite He, IHl by assumption. destruct e; reflexivity. }
    rewrite Heach. reflexivity.
  - cbn [has_bigint] in Hbig. cbn [SerializeJSONProperty json_image json_text].
    match goal with
    | |- match ?each l with _ => _ end = Normal (Some (bracketed _ _ _ _ _
                                                       (map ?f (?img l)))) =>
        assert (Heach : each l = Normal (map f (img l)))
    end.
    { induction IH as [|[k e] l He _ IHl]; [reflexivity|].
      cbn [existsb snd] in Hbig, He. apply orb_false_iff in Hbig as [Hbe Hbl].
      rewrite He, IHl by assumption. destruct e; reflexivity. }
    rewrite Heach. reflexivity.
Qed.

Lemma json_image_fixed (v : JsValue) :
  json_serializable v = true -> json_image v = v.
Proof.
  induction v as [| |b|n|n|s|l IH|l IH|name message] using JsValue_induction;
    intros Hser; try discriminate Hser; try reflexivity.
  - cbn [json_serializable] in Hser. cbn [json_image]. f_equal.
    induction IH as [|e l He _ IHl]; [reflexivity|].
    cbn [forallb] in Hser. apply andb_true_iff in Hser as [Hse Hsl].
    cbn [map]. now rewrite He, IHl.
  - cbn [json_serializable] in Hser. cbn [json_image]. f_equal.
    induction IH as [|[k e] l He _ IHl]; [reflexivity|].
    cbn [forallb snd] in Hser, He. apply andb_true_iff in Hser as [Hse Hsl].
    rewrite IHl, He by assumption. destruct e; try reflexivity; discriminate Hse.
Qed.

Lemma SerializeJSONProperty_bigint (gap : string) (v : JsValue) :
  has_bigint v = true ->
  forall indent, SerializeJSONProperty gap indent v = Throw bigint_error.
Proof.
  induction v as [| |b|n|n|s|l IH|l IH|name message] using JsValue_induction;
    intros Hbig indent; try discriminate Hbig; try reflexivity.
  - cbn [has_bigint] in Hbig. cbn [SerializeJSONProperty].
    match goal with
    | |- match ?each l with _ => _ end = _ =>
        assert (Heach : each l = Throw bigint_error)
    end.
    { induction IH as [|e l He _ IHl]; [discriminate Hbig|].
      cbn [existsb] in Hbig.
      destruct (SerializeJSONProperty gap (indent ++ gap) e) as [strP|err] eqn:Ee.
      - destruct (has_bigint e) eqn:Hbe.
        + rewrite (He eq_refl) in Ee. discriminate Ee.
        + now rewrite IHl.
      - now rewrite (SerializeJSONProperty_throws gap e _ _ Ee). }
    now rewrite Heach.
  - cbn [has_bigint] in Hbig. cbn [SerializeJSONProperty].
    match goal with
    | |- match ?each l with _ => _ end = _ =>
        assert (Heach : each l = Throw bigint_error)
    end.
    { induction IH as [|[k e] l He _ IHl]; [discriminate Hbig|].
      cbn [existsb snd] in Hbig, He.
      destruct (SerializeJSONProperty gap (indent ++ gap) e) as [strP|err] eqn:Ee.
      - destruct (has_bigint e) eqn:Hbe.
        + rewrite (He eq_refl) in Ee. discriminate Ee.
        + now rewrite IHl.
      - now rewrite (SerializeJSONProperty_throws gap e _ _ Ee). }
    now rewrite Heach.
Qed.

Lemma json_image_serializable (v : JsValue) :
  has_bigint v = false -> safe_numbers v = true ->
  json_serializable (json_image v) = true.
Proof.
  induction v as [| |b|n|n|s|l IH|l IH|name message] using JsValue_induction;
    intros Hbig Hsafe; try discriminate Hbig; try reflexivity.
  - exact Hsafe.
  - cbn [has_bigint safe_numbers] in Hbig, Hsafe.
    cbn [json_image json_serializable].
    induction IH as [|e l He _ IHl]; [reflexivity|].
    cbn [existsb forallb] in Hbig, Hsafe.
    apply orb_false_iff in Hbig as [Hbe Hbl].
    apply andb_true_iff in Hsafe as [Hse Hsl].
    cbn [map forallb]. now rewrite He, IHl.
  - cbn [has_bigint safe_numbers] in Hbig, Hsafe.
    cbn [json_image json_serializable].
    induction IH as [|[k e] l He _ IHl]; [reflexivity|].
    cbn [existsb forallb snd] in Hbig, Hsafe, He.
    apply orb_false_iff in Hbig as [Hbe Hbl].
    apply andb_true_iff in Hsafe as [Hse Hsl].
    specialize (He Hbe Hse). specialize (IHl Hbl Hsl).
    destruct e; cbn [forallb snd]; try (now rewrite ?He, IHl); exact IHl.
Qed.

(** ** The fulfilled path, by the class of the value *)

Lemma run_image
  (googleNewsScraper : RetrievalConfig -> Settlement) (argv : list string)
  (term : string) (value : JsValue) :
  nth_error argv 2 = Some term -> term <> EmptyString ->
  googleNewsScraper (config_for (JString term)) = Fulfilled value ->
  has_bigint value = false ->
  run googleNewsScraper argv
  = (Returned tt,
     [Retrieve (config_for (JString term));
      Stdout (format_line
                match value with
                | JUndefined => None
                | _ => Some (json_text "  " EmptyString (json_image value))
                end)]).
Proof.
  intros Hterm Hne Hp Hbig.
  apply (run_fulfilled googleNewsScraper argv term Hterm Hne value _ Hp).
  apply (SerializeJSONProperty_image "  " value Hbig).
Qed.

Lemma run_bigint
  (googleNewsScraper : RetrievalConfig -> Settlement) (argv : list string)
  (term : string) (value : JsValue) :
  nth_error argv 2 = Some term -> term <> EmptyString ->
  googleNewsScraper (config_for (JString term)) = Fulfilled value ->
  has_bigint value = true ->
  run googleNewsScraper argv
  = (Exited 1,
     [Retrieve (config_for (JString term));
      Stderr (report_line
                "Scraper failed: Do not know how to serialize a BigInt")]).
Proof.
  intros Hterm Hne Hp Hbig.
  apply (run_caught googleNewsScraper argv term Hterm Hne bigint_error
           "Do not know how to serialize a BigInt");
    [|reflexivity].
  right. exists value. split; [assumption|].
  apply (SerializeJSONProperty_bigint "  " value Hbig).
Qed.


(** ** Indentation of the text *)















(** * The claims *)

(** C1. When the positional search term is absent or empty, the program
    makes no retrieval attempt, writes the one-line JSON ErrorReport with
    message [No search term provided.] to standard error, writes nothing to
    standard output and ends with exit status 1. *)
Theorem missing_search_term
  (googleNewsScraper : RetrievalConfig -> Settlement) (argv : list string) :
  nth_error argv 2 = None \/ nth_error argv 2 = Some EmptyString ->
  run googleNewsScraper argv
  = (Exited 1, [Stderr (report_line "No search term provided.")])
  /\ retrievals_of (snd (run googleNewsScraper argv)) = []
  /\ stdout_of (snd (run googleNewsScraper argv)) = EmptyString
  /\ stderr_of (snd (run googleNewsScraper argv))
     = "{" ++ QUOTE ++ "error" ++ QUOTE ++ ":"
         ++ QUOTE ++ "No search term provided." ++ QUOTE ++ "}" ++ NL
  /\ single_line (stderr_of (snd (run googleNewsScraper argv))) = true
  /\ JSON_parse (stderr_of (snd (run googleNewsScraper argv)))
     = Some (ErrorReport "No search term provided.")
  /\ exit_status (fst (run googleNewsScraper argv)) = Some 1%Z.
Proof.
  intros H.
  assert (Hrun : run googleNewsScraper argv
                 = (Exited 1, [Stderr (report_line "No search term provided.")])).
  { apply run_missing. unfold process_argv. now destruct H as [-> | ->]. }
  rewrite Hrun. cbn [fst snd retrievals_of stdout_of stderr_of exit_status].
  rewrite append_empty_r.
  repeat split; auto using report_line_single, report_line_parse.
Qed.

Lemma missing_search_term_witness :
  nth_error ["node"; "run_scraper.js"] 2 = None
  /\ stderr_of (snd (run (fun _ => Fulfilled (JArray [])) ["node"; "run_scraper.js"]))
     = "{" ++ QUOTE ++ "error" ++ QUOTE ++ ":"
         ++ QUOTE ++ "No search term provided." ++ QUOTE ++ "}" ++ NL.
Proof.
  split; [reflexivity|].
  apply (missing_search_term (fun _ => Fulfilled (JArray []))
           ["node"; "run_scraper.js"]).
  left; reflexivity.
Defined.

(** C2. With a valid search term, when the Provider's retrieval fails with
    an error carrying message [m], the program writes the one-line JSON
    ErrorReport with message [Scraper failed: m] to standard error, writes
    nothing to standard output and ends with exit status 1. *)
Theorem provider_failure_reported
  (googleNewsScraper : RetrievalConfig -> Settlement) (argv : list string)
  (term : string) (error : JsValue) (m : string) :
  nth_error argv 2 = Some term -> term <> EmptyString ->
  googleNewsScraper (config_for (JString term)) = Rejected error ->
  read_message error = Normal (JString m) ->
  run googleNewsScraper argv
  = (Exited 1, [Retrieve (config_for (JString term));
                Stderr (report_line ("Scraper failed: " ++ m))])
  /\ stdout_of (snd (run googleNewsScraper argv)) = EmptyString
  /\ stderr_of (snd (run googleNewsScraper argv))
     = "{" ++ QuoteJSONString "error" ++ ":"
         ++ QuoteJSONString ("Scraper failed: " ++ m) ++ "}" ++ NL
  /\ single_line (stderr_of (snd (run googleNewsScraper argv))) = true
  /\ JSON_parse (stderr_of (snd (run googleNewsScraper argv)))
     = Some (ErrorReport ("Scraper failed: " ++ m))
  /\ exit_status (fst (run googleNewsScraper argv)) = Some 1%Z.
Proof.
  intros Hterm Hne Hp Hm.
  rewrite (run_caught googleNewsScraper argv term Hterm Hne error m)
    by (try (now left); unfold rendered_message; now rewrite Hm).
  cbn [fst snd stdout_of stderr_of exit_status].
  rewrite append_empty_r.
  repeat split; auto using report_line_single, report_line_parse.
Qed.

Lemma provider_failure_reported_witness :
  (nth_error ["node"; "run_scraper.js"; "x"] 2 = Some "x" /\ "x" <> EmptyString)
  /\ run (fun _ => Rejected (JError "Error" "network timeout"))
       ["node"; "run_scraper.js"; "x"]
     = (Exited 1, [Retrieve (config_for (JString "x"));
                   Stderr (report_line "Scraper failed: network timeout")]).
Proof.
  split; [split; [reflexivity | discriminate]|].
  apply (provider_failure_reported
           (fun _ => Rejected (JError "Error" "network timeout"))
           ["node"; "run_scraper.js"; "x"] "x"
           (JError "Error" "network timeout") "network timeout");
    [reflexivity | discriminate | reflexivity | reflexivity].
Defined.



(** C4. For every valid search term the configuration record passed to the
    Provider has the fixed field values (readable URLs, a lookback of seven
    days, at most 15 results, the two flags that disable the browser
    sandbox, errors-only logging); two runs with different terms pass
    records that differ in the [searchTerm] field only. *)
Theorem configuration_fixed
  (provider1 provider2 : RetrievalConfig -> Settlement)
  (argv1 argv2 : list string) (term1 term2 : string) :
  nth_error argv1 2 = Some term1 -> term1 <> EmptyString ->
  nth_error argv2 2 = Some term2 -> term2 <> EmptyString ->
  exists config1 config2,
    retrievals_of (snd (run provider1 argv1)) = [config1]
    /\ retrievals_of (snd (run provider2 argv2)) = [config2]
    /\ config1 = {| searchTerm := JString term1;
                    prettyURLs := true;
                    timeframe := "7d";
                    puppeteerArgs := ["--no-sandbox"; "--disable-setuid-sandbox"];
                    logLevel := "error";
                    limit := 15 |}
    /\ with_searchTerm (searchTerm config2) config1 = config2.
Proof.
  intros H1 Hne1 H2 Hne2.
  exists (config_for (JString term1)), (config_for (JString term2)).
  assert (Hone : forall provider argv term,
             nth_error argv 2 = Some term -> term <> EmptyString ->
             retrievals_of (snd (run provider argv)) = [config_for (JString term)]).
  { intros provider argv term Ht Hne.
    destruct (run_valid_cases provider argv term Ht Hne)
      as [(v & t & _ & _ & ->) | [(e & m & _ & _ & ->) | (e & t & _ & _ & ->)]];
      reflexivity. }
  repeat split; auto.
Qed.

Lemma configuration_fixed_witness :
  ((nth_error ["node"; "run_scraper.js"; "budget 2024"] 2 = Some "budget 2024"
    /\ "budget 2024" <> EmptyString)
   /\ (nth_error ["node"; "run_scraper.js"; "x"; "y"] 2 = Some "x"
       /\ "x" <> EmptyString))
  /\ exists config1 config2,
      retrievals_of (snd (run (fun _ => Fulfilled (JArray []))
                            ["node"; "run_scraper.js"; "budget 2024"]))
      = [config1]
      /\ retrievals_of (snd (run (fun _ => Rejected JNull)
                               ["node"; "run_scraper.js"; "x"; "y"]))
         = [config2]
      /\ config1 = {| searchTerm := JString "budget 2024";
                      prettyURLs := true;
                      timeframe := "7d";
                      puppeteerArgs := ["--no-sandbox"; "--disable-setuid-sandbox"];
                      logLevel := "error";
                      limit := 15 |}
      /\ with_searchTerm (searchTerm config2) config1 = config2.
Proof.
  split; [repeat split; discriminate|].
  apply (configuration_fixed (fun _ => Fulfilled (JArray [])) (fun _ => Rejected JNull)
           ["node"; "run_scraper.js"; "budget 2024"]
           ["node"; "run_scraper.js"; "x"; "y"] "budget 2024" "x");
    [reflexivity | discriminate | reflexivity | discriminate].
Defined.




(** C6. In every run the Provider's retrieval operation is invoked exactly
    once when a valid search term is supplied, whatever the Provider then
    does, and not at all when the search term is missing or empty; it is
    never invoked more than once. *)
Theorem single_invocation
  (googleNewsScraper : RetrievalConfig -> Settlement) (argv : list string) :
  length (retrievals_of (snd (run googleNewsScraper argv)))
  = match nth_error argv 2 with
    | Some term => if term =? EmptyString then 0 else 1
    | None => 0
    end
  /\ length (retrievals_of (snd (run googleNewsScraper argv))) <= 1.
Proof.
  destruct (argv_cases argv) as [[Hfalse Hmissing] | (term & Hterm & Hne)].
  - rewrite (run_missing googleNewsScraper argv Hfalse).
    destruct Hmissing as [-> | ->]; cbn; auto.
  - rewrite Hterm. destruct (String.eqb_spec term EmptyString); [contradiction|].
    destruct (run_valid_cases googleNewsScraper argv term Hterm Hne)
      as [(v & t & _ & _ & ->) | [(e & m & _ & _ & ->) | (e & t & _ & _ & ->)]];
      cbn; auto.
Qed.

(** C7.  The run the claim fails on: the Provider rejects with [null].  The
    read of [error.message] in the handler throws a TypeError, so [main]
    ends by throwing: after the retrieval the only event is the runtime's
    report of the uncaught TypeError, no ErrorReport line is written with
    [console.error], [process.exit] is not reached, and the process ends
    with status 1. *)
Theorem null_rejection_leaves_no_report :
  run (fun _ => Rejected JNull) ["node"; "run_scraper.js"; "x"]
  = (Thrown (JError "TypeError"
               "Cannot read properties of null (reading 'message')"),
     [Retrieve (config_for (JString "x"));
      Uncaught (JError "TypeError"
                  "Cannot read properties of null (reading 'message')")])
  /\ (forall message,
        ~ In (Stderr (report_line message))
            (snd (run (fun _ => Rejected JNull) ["node"; "run_scraper.js"; "x"])))
  /\ exit_status
       (fst (run (fun _ => Rejected JNull) ["node"; "run_scraper.js"; "x"]))
     = Some 1%Z.
Proof.
  split; [reflexivity|]. split; [|reflexivity].
  intros message [H | [H | []]]; discriminate H.
Qed.

(** C8.  The run the claim fails on: the Provider rejects with [undefined],
    an error value that carries no message.  The read of [error.message]
    in the handler throws a TypeError, so [main] ends by throwing: no
    ErrorReport with the message [Scraper failed: undefined], nor any
    other, is written with [console.error]; after the retrieval the only
    event is the runtime's report of the uncaught TypeError. *)
Theorem undefined_rejection_leaves_no_report :
  rendered_message JUndefined
  = Throw (JError "TypeError"
             "Cannot read properties of undefined (reading 'message')")
  /\ run (fun _ => Rejected JUndefined) ["node"; "run_scraper.js"; "x"]
     = (Thrown (JError "TypeError"
                  "Cannot read properties of undefined (reading 'message')"),
        [Retrieve (config_for (JString "x"));
         Uncaught (JError "TypeError"
                     "Cannot read properties of undefined (reading 'message')")])
  /\ forall message,
      ~ In (Stderr (report_line message))
          (snd (run (fun _ => Rejected JUndefined)
                  ["node"; "run_scraper.js"; "x"])).
Proof.
  split; [reflexivity|]. split; [reflexivity|].
  intros message [H | [H | []]]; discriminate H.
Qed.



(** C10. The program reads the first positional argument only: two
    invocations with the same first positional argument, whatever further
    arguments they carry, pass the same configuration to the Provider and,
    the Provider behaving the same, give the same standard output, standard
    error and exit status. *)
Theorem only_first_argument_read
  (googleNewsScraper : RetrievalConfig -> Settlement) (argv1 argv2 : list string) :
  nth_error argv1 2 = nth_error argv2 2 ->
  run googleNewsScraper argv1 = run googleNewsScraper argv2
  /\ retrievals_of (snd (run googleNewsScraper argv1))
     = retrievals_of (snd (run googleNewsScraper argv2))
  /\ stdout_of (snd (run googleNewsScraper argv1))
     = stdout_of (snd (run googleNewsScraper argv2))
  /\ stderr_of (snd (run googleNewsScraper argv1))
     = stderr_of (snd (run googleNewsScraper argv2))
  /\ exit_status (fst (run googleNewsScraper argv1))
     = exit_status (fst (run googleNewsScraper argv2)).
Proof.
  intros H.
  assert (Hrun : run googleNewsScraper argv1 = run googleNewsScraper argv2).
  { unfold run, main, process_argv. now rewrite H. }
  rewrite Hrun. repeat split.
Qed.

Lemma only_first_argument_read_witness :
  nth_error ["node"; "run_scraper.js"; "x"; "y"; "z"] 2
  = nth_error ["/usr/bin/node"; "/srv/run_scraper.js"; "x"] 2
  /\ run (fun _ => Rejected (JError "Error" "network timeout"))
       ["node"; "run_scraper.js"; "x"; "y"; "z"]
     = run (fun _ => Rejected (JError "Error" "network timeout"))
         ["/usr/bin/node"; "/srv/run_scraper.js"; "x"].
Proof.
  split; [reflexivity|].
  apply (only_first_argument_read
           (fun _ => Rejected (JError "Error" "network timeout"))
           ["node"; "run_scraper.js"; "x"; "y"; "z"]
           ["/usr/bin/node"; "/srv/run_scraper.js"; "x"]).
  reflexivity.
Defined.

(** * Further properties of [main] *)

(** X1. With a valid search term, when the Provider rejects with [undefined]
    or [null], the read of [error.message] in the handler throws a
    TypeError: [main] ends by throwing after its one retrieval, without a
    write of [console.log] or [console.error] and without reaching
    [process.exit]; the runtime reports the uncaught TypeError and the
    process ends with status 1. *)
Theorem nullish_rejection_unreported
  (googleNewsScraper : RetrievalConfig -> Settlement) (argv : list string)
  (term : string) (reason : JsValue) :
  nth_error argv 2 = Some term -> term <> EmptyString ->
  googleNewsScraper (config_for (JString term)) = Rejected reason ->
  reason = JUndefined \/ reason = JNull ->
  (exists text,
      run googleNewsScraper argv
      = (Thrown (JError "TypeError" text),
         [Retrieve (config_for (JString term));
          Uncaught (JError "TypeError" text)]))
  /\ exit_status (fst (run googleNewsScraper argv)) = Some 1%Z.
Proof.
  intros Hterm Hne Hp Hnull.
  assert (Hrun : exists text,
             run googleNewsScraper argv
             = (Thrown (JError "TypeError" text),
                [Retrieve (config_for (JString term));
                 Uncaught (JError "TypeError" text)])).
  { destruct Hnull as [-> | ->]; eexists;
      (eapply run_handler_throws;
       [exact Hterm | exact Hne | left; exact Hp | reflexivity]). }
  destruct Hrun as (text & Hrun). rewrite Hrun.
  split; [now exists text | reflexivity].
Qed.

Lemma nullish_rejection_unreported_witness :
  (nth_error ["node"; "run_scraper.js"; "x"] 2 = Some "x" /\ "x" <> EmptyString)
  /\ exit_status (fst (run (fun _ => Rejected JUndefined)
                         ["node"; "run_scraper.js"; "x"])) = Some 1%Z.
Proof.
  split; [split; [reflexivity | discriminate]|].
  apply (nullish_rejection_unreported (fun _ => Rejected JUndefined)
           ["node"; "run_scraper.js"; "x"] "x" JUndefined);
    [reflexivity | discriminate | reflexivity | left; reflexivity].
Defined.

(** X2. [main] throws only out of its handler.  If a run ends with [main]
    throwing, the search term was valid, the handler had caught a failure
    (a rejection of the Provider or an exception of the serialization),
    the thrown value was raised by the handler's template literal (the
    read of [error.message] or its conversion to a string) and nothing
    had been written.  The missing-argument path never throws, and
    neither does a failure whose message is read and converted. *)
Theorem main_throws_only_in_handler
  (googleNewsScraper : RetrievalConfig -> Settlement) (argv : list string)
  (thrown : JsValue) :
  fst (run googleNewsScraper argv) = Thrown thrown ->
  exists term error,
    nth_error argv 2 = Some term /\ term <> EmptyString
    /\ caught googleNewsScraper term error
    /\ rendered_message error = Throw thrown
    /\ snd (run googleNewsScraper argv)
       = [Retrieve (config_for (JString term)); Uncaught thrown].
Proof.
  intros Hthrown.
  destruct (argv_cases argv) as [[Hfalse _] | (term & Hterm & Hne)].
  - rewrite (run_missing googleNewsScraper argv Hfalse) in Hthrown.
    discriminate Hthrown.
  - destruct (run_valid_cases googleNewsScraper argv term Hterm Hne)
      as [(v & t & _ & _ & Hrun) | [(e & m & _ & _ & Hrun) | (e & t & Hc & Hm & Hrun)]];
      rewrite Hrun in Hthrown |- *; try discriminate Hthrown.
    cbn [fst] in Hthrown. inversion Hthrown; subst t.
    exists term, e. repeat split; auto.
Qed.

Lemma main_throws_only_in_handler_witness :
  fst (run (fun _ => Rejected (JObject [("message",
                                          JObject [("toString", JNull)])]))
         ["node"; "run_scraper.js"; "x"])
  = Thrown primitive_error
  /\ exists term error,
      nth_error ["node"; "run_scraper.js"; "x"] 2 = Some term
      /\ term <> EmptyString
      /\ caught (fun _ => Rejected (JObject [("message",
                                              JObject [("toString", JNull)])]))
           term error
      /\ rendered_message error = Throw primitive_error
      /\ snd (run (fun _ => Rejected (JObject [("message",
                                                JObject [("toString", JNull)])]))
                ["node"; "run_scraper.js"; "x"])
         = [Retrieve (config_for (JString term)); Uncaught primitive_error].
Proof.
  split; [reflexivity|].
  apply (main_throws_only_in_handler
           (fun _ => Rejected (JObject [("message",
                                         JObject [("toString", JNull)])]))
           ["node"; "run_scraper.js"; "x"]).
  reflexivity.
Defined.


(** X4. With a valid search term, when [JSON.stringify] returns [undefined]
    for the value the Provider fulfilled with, as it does for the value
    [undefined], the run still succeeds: [console.log] writes the word
    [undefined] as the one line of standard output, nothing goes to
    standard error and the exit status is 0. *)
Theorem unserialized_result_line
  (googleNewsScraper : RetrievalConfig -> Settlement) (argv : list string)
  (term : string) (value : JsValue) :
  nth_error argv 2 = Some term -> term <> EmptyString ->
  googleNewsScraper (config_for (JString term)) = Fulfilled value ->
  JSON_stringify value (JNumber 2) = Normal None ->
  run googleNewsScraper argv
  = (Returned tt, [Retrieve (config_for (JString term));
                   Stdout ("undefined" ++ NL)])
  /\ stdout_of (snd (run googleNewsScraper argv)) = "undefined" ++ NL
  /\ stderr_of (snd (run googleNewsScraper argv)) = EmptyString
  /\ exit_status (fst (run googleNewsScraper argv)) = Some 0%Z.
Proof.
  intros Hterm Hne Hp Hs.
  rewrite (run_fulfilled googleNewsScraper argv term Hterm Hne value None Hp Hs).
  repeat split.
Qed.

Lemma unserialized_result_line_witness :
  (nth_error ["node"; "run_scraper.js"; "x"] 2 = Some "x" /\ "x" <> EmptyString)
  /\ JSON_stringify JUndefined (JNumber 2) = Normal None
  /\ stdout_of (snd (run (fun _ => Fulfilled JUndefined)
                       ["node"; "run_scraper.js"; "x"]))
     = "undefined" ++ NL.
Proof.
  split; [split; [reflexivity | discriminate]|]. split; [reflexivity|].
  apply (unserialized_result_line (fun _ => Fulfilled JUndefined)
           ["node"; "run_scraper.js"; "x"] "x" JUndefined);
    [reflexivity | discriminate | reflexivity | reflexivity].
Defined.

(** X5. With a valid search term, for every fulfilled value that is built
    from [undefined], [null], booleans, safe integers, strings, Error
    instances, arrays and plain objects, and is not [undefined] itself,
    standard output reads back as the image of that value: a property whose
    value is [undefined] is gone, an [undefined] element of an array is
    [null], an Error instance is an empty object, everything else is kept
    in order.  A value JSON denotes reads back as itself, and serializing
    the value read back gives the same text again. *)
Theorem emitted_json_image
  (googleNewsScraper : RetrievalConfig -> Settlement) (argv : list string)
  (term : string) (value : JsValue) :
  nth_error argv 2 = Some term -> term <> EmptyString ->
  googleNewsScraper (config_for (JString term)) = Fulfilled value ->
  has_bigint value = false -> safe_numbers value = true ->
  value <> JUndefined ->
  (exists text,
      run googleNewsScraper argv
      = (Returned tt,
         [Retrieve (config_for (JString term)); Stdout (text ++ NL)]))
  /\ JSON_parse (stdout_of (snd (run googleNewsScraper argv)))
     = Some (json_image value)
  /\ (json_serializable value = true ->
      JSON_parse (stdout_of (snd (run googleNewsScraper argv))) = Some value)
  /\ JSON_stringify (json_image value) (JNumber 2)
     = JSON_stringify value (JNumber 2).
Proof.
  intros Hterm Hne Hp Hbig Hsafe Hdef.
  assert (Hrun : run googleNewsScraper argv
                 = (Returned tt,
                    [Retrieve (config_for (JString term));
                     Stdout (json_text "  " EmptyString (json_image value) ++ NL)])).
  { rewrite (run_image googleNewsScraper argv term value Hterm Hne Hp Hbig).
    destruct value; try reflexivity. now elim Hdef. }
  assert (Hparse : JSON_parse (stdout_of (snd (run googleNewsScraper argv)))
                   = Some (json_image value)).
  { rewrite Hrun. cbn [snd stdout_of]. rewrite append_empty_r.
    apply JSON_parse_json_text; auto using json_image_serializable. }
  split; [eexists; exact Hrun|]. split; [exact Hparse|]. split.
  - intros Hser. now rewrite Hparse, json_image_fixed.
  - unfold JSON_stringify.
    rewrite (SerializeJSONProperty_image _ value Hbig).
    rewrite (SerializeJSONProperty_serializable _ (json_image value))
      by now apply json_image_serializable.
    destruct value; try reflexivity. now elim Hdef.
Qed.

Lemma emitted_json_image_witness :
  (nth_error ["node"; "run_scraper.js"; "x"] 2 = Some "x" /\ "x" <> EmptyString)
  /\ JSON_parse
       (stdout_of
          (snd (run (fun _ => Fulfilled
                       (JArray [JObject [("title", JString "Budget");
                                         ("image", JUndefined);
                                         ("tags", JArray [JUndefined; JNumber 2])];
                                JError "Error" "stale"]))
                  ["node"; "run_scraper.js"; "x"])))
     = Some (JArray [JObject [("title", JString "Budget");
                              ("tags", JArray [JNull; JNumber 2])];
                     JObject []]).
Proof.
  split; [split; [reflexivity | discriminate]|].
  apply (emitted_json_image
           (fun _ => Fulfilled
              (JArray [JObject [("title", JString "Budget");
                                ("image", JUndefined);
                                ("tags", JArray [JUndefined; JNumber 2])];
                       JError "Error" "stale"]))
           ["node"; "run_scraper.js"; "x"] "x"
           (JArray [JObject [("title", JString "Budget");
                             ("image", JUndefined);
                             ("tags", JArray [JUndefined; JNumber 2])];
                    JError "Error" "stale"]));
    [reflexivity | discriminate | reflexivity | reflexivity | reflexivity
    | discriminate].
Defined.

(** X6. With a valid search term, when the value the Provider fulfils with
    holds a BigInt at any depth, the whole result is discarded: nothing is
    written to standard output, standard error carries the report of the
    serializer's TypeError and the exit status is 1. *)
Theorem bigint_discards_result
  (googleNewsScraper : RetrievalConfig -> Settlement) (argv : list string)
  (term : string) (value : JsValue) :
  nth_error argv 2 = Some term -> term <> EmptyString ->
  googleNewsScraper (config_for (JString term)) = Fulfilled value ->
  has_bigint value = true ->
  run googleNewsScraper argv
  = (Exited 1,
     [Retrieve (config_for (JString term));
      Stderr (report_line
                "Scraper failed: Do not know how to serialize a BigInt")])
  /\ stdout_of (snd (run googleNewsScraper argv)) = EmptyString
  /\ JSON_parse (stderr_of (snd (run googleNewsScraper argv)))
     = Some (ErrorReport "Scraper failed: Do not know how to serialize a BigInt")
  /\ exit_status (fst (run googleNewsScraper argv)) = Some 1%Z.
Proof.
  intros Hterm Hne Hp Hbig.
  rewrite (run_bigint googleNewsScraper argv term value Hterm Hne Hp Hbig).
  cbn [fst snd stdout_of stderr_of exit_status]. rewrite append_empty_r.
  repeat split; auto using report_line_parse.
Qed.

Lemma bigint_discards_result_witness :
  (nth_error ["node"; "run_scraper.js"; "x"] 2 = Some "x" /\ "x" <> EmptyString)
  /\ has_bigint (JArray [JObject [("title", JString "Budget")];
                         JObject [("stats", JArray [JNull; JBigInt 7])]]) = true
  /\ stdout_of
       (snd (run (fun _ => Fulfilled
                    (JArray [JObject [("title", JString "Budget")];
                             JObject [("stats", JArray [JNull; JBigInt 7])]]))
               ["node"; "run_scraper.js"; "x"])) = EmptyString.
Proof.
  split; [split; [reflexivity | discriminate]|]. split; [reflexivity|].
  apply (bigint_discards_result
           (fun _ => Fulfilled
              (JArray [JObject [("title", JString "Budget")];
                       JObject [("stats", JArray [JNull; JBigInt 7])]]))
           ["node"; "run_scraper.js"; "x"] "x"
           (JArray [JObject [("title", JString "Budget")];
                    JObject [("stats", JArray [JNull; JBigInt 7])]]));
    [reflexivity | discriminate | reflexivity | reflexivity].
Defined.

(** X7. The report depends on the failure through its message and through
    nothing else, and it keeps the message apart from every other: two
    runs with the same search term whose Providers reject with values that
    carry the message strings [m1] and [m2] are equal, in trace and in
    result, exactly when [m1] and [m2] are equal, whatever the names and
    other properties of the two values. *)
Theorem message_decides_report
  (provider1 provider2 : RetrievalConfig -> Settlement) (argv : list string)
  (term : string) (reason1 reason2 : JsValue) (m1 m2 : string) :
  nth_error argv 2 = Some term -> term <> EmptyString ->
  provider1 (config_for (JString term)) = Rejected reason1 ->
  provider2 (config_for (JString term)) = Rejected reason2 ->
  read_message reason1 = Normal (JString m1) ->
  read_message reason2 = Normal (JString m2) ->
  (run provider1 argv = run provider2 argv <-> m1 = m2).
Proof.
  intros Hterm Hne Hp1 Hp2 Hm1 Hm2.
  rewrite (run_caught provider1 argv term Hterm Hne reason1 m1)
    by (try (now left); unfold rendered_message; now rewrite Hm1).
  rewrite (run_caught provider2 argv term Hterm Hne reason2 m2)
    by (try (now left); unfold rendered_message; now rewrite Hm2).
  split; [|now intros ->].
  intros Heq.
  assert (Hline : stderr_of [Retrieve (config_for (JString term));
                             Stderr (report_line ("Scraper failed: " ++ m1))]
                  = stderr_of [Retrieve (config_for (JString term));
                               Stderr (report_line ("Scraper failed: " ++ m2))])
    by (apply (f_equal (fun r => stderr_of (snd r))) in Heq; exact Heq).
  cbn [stderr_of] in Hline. rewrite !append_empty_r in Hline.
  pose proof (report_line_parse ("Scraper failed: " ++ m1)) as H1.
  rewrite Hline, report_line_parse in H1.
  unfold ErrorReport in H1. injection H1 as H1. cbn [append] in H1.
  now inversion H1.
Qed.

Lemma message_decides_report_witness :
  (nth_error ["node"; "run_scraper.js"; "x"] 2 = Some "x" /\ "x" <> EmptyString)
  /\ (run (fun _ => Rejected (JError "TimeoutError" "late"))
        ["node"; "run_scraper.js"; "x"]
      = run (fun _ => Rejected (JObject [("code", JString "E42");
                                         ("message", JString "late")]))
          ["node"; "run_scraper.js"; "x"]
      <-> "late" = "late").
Proof.
  split; [split; [reflexivity | discriminate]|].
  apply (message_decides_report
           (fun _ => Rejected (JError "TimeoutError" "late"))
           (fun _ => Rejected (JObject [("code", JString "E42");
                                        ("message", JString "late")]))
           ["node"; "run_scraper.js"; "x"] "x"
           (JError "TimeoutError" "late")
           (JObject [("code", JString "E42"); ("message", JString "late")])
           "late" "late");
    [reflexivity | discriminate | reflexivity | reflexivity | reflexivity
    | reflexivity].
Defined.

(** X8. Every run has one of four shapes, and in each the program makes at
    most one write.  Without a search term: the report of the missing
    argument on standard error, status 1, no retrieval.  With one, after
    the one retrieval: either the complete text of the result with
    [console.log] and a return; or one report line with [console.error]
    and status 1; or no write at all, when the handler itself throws.  So
    no run writes to both streams, and none writes part of a result. *)
Theorem every_run_shape
  (googleNewsScraper : RetrievalConfig -> Settlement) (argv : list string) :
  ((nth_error argv 2 = None \/ nth_error argv 2 = Some EmptyString)
   /\ run googleNewsScraper argv
      = (Exited 1, [Stderr (report_line "No search term provided.")]))
  \/ exists term,
      nth_error argv 2 = Some term /\ term <> EmptyString
      /\ ((exists value text,
              googleNewsScraper (config_for (JString term)) = Fulfilled value
              /\ JSON_stringify value (JNumber 2) = Normal text
              /\ run googleNewsScraper argv
                 = (Returned tt, [Retrieve (config_for (JString term));
                                  Stdout (format_line text)]))
          \/ (exists text,
                 run googleNewsScraper argv
                 = (Exited 1, [Retrieve (config_for (JString term));
                               Stderr (report_line ("Scraper failed: " ++ text))]))
          \/ (exists thrown,
                 run googleNewsScraper argv
                 = (Thrown thrown, [Retrieve (config_for (JString term));
                                    Uncaught thrown]))).
Proof.
  destruct (argv_cases argv) as [[Hfalse Hmissing] | (term & Hterm & Hne)].
  - left. split; [exact Hmissing|]. now apply run_missing.
  - right. exists term. split; [exact Hterm|]. split; [exact Hne|].
    destruct (run_valid_cases googleNewsScraper argv term Hterm Hne)
      as [(v & t & Hp & Hs & Hrun) | [(e & m & _ & _ & Hrun) | (e & t & _ & _ & Hrun)]].
    + left. now exists v, t.
    + right. left. now exists m.
    + right. right. now exists t.
Qed.
